(** * The PlayHT streaming text-to-speech adapter (voiceagent/playht.py)

    A shallow embedding of class [PlayHTTTS]: its pending-text buffer, the
    [flush] coroutine, the asynchronous generator [synthesize_stream] that
    talks to the remote service, and the adapter's own iteration protocol
    [__aiter__].

    Conventions of the embedding.
    - Python [int] is [Z], [bytes] is [list byte], [str] is [string].
    - The remote service is an explicit environment ([Remote]): what the POST
      answers, what the streaming GET delivers, and the sixteen random bytes
      behind [uuid.uuid4()].
    - A coroutine or generator body is a computation in the monad [Gen]:
      it leaves a trace of events (network calls made, units yielded) and
      either returns or raises a Python exception.
    - Logging calls have no effect on state or control flow and are left
      out, and so are the creation and the closing of the httpx client,
      which send nothing. *)

From Stdlib Require Import ZArith NArith List String Ascii Bool Lia.
From Stdlib Require Strings.Byte.
From Stdlib Require Import DecimalString.
Import ListNotations.
Open Scope string_scope.
Open Scope Z_scope.

(** ** Python values and the operations the adapter applies to them *)

Module Py.

(** What [response.json()] can return. Dictionaries keep their items in
    insertion order, keys distinct; a float is carried as its literal,
    since no arithmetic is ever done on it. *)
#[warnings="-register-all"] Inductive PyVal : Type :=
| PyNone
| PyBool (b : bool)
| PyInt (z : Z)
| PyFloat (lit : string)
| PyStr (s : string)
| PyList (l : list PyVal)
| PyDict (d : list (string * PyVal)).

(** Exceptions, all of them subclasses of [Exception]. [TransportError]
    stands for whatever httpx raises from a network call (connection
    failure, timeout, protocol error). *)
Inductive PyExc : Type :=
| TypeError (msg : string)
| KeyError (key : string)
| ZeroDivisionError
| JSONDecodeError
| TransportError (msg : string).

Inductive Outcome (A : Type) : Type :=
| Ok (a : A)
| Raise (e : PyExc).
Arguments Ok {A} a.
Arguments Raise {A} e.

(** [needle in haystack] for two strings: substring test. *)
Fixpoint str_contains (needle haystack : string) : bool :=
  String.prefix needle haystack
  || match haystack with
     | EmptyString => false
     | String _ rest => str_contains needle rest
     end.

Definition is_str (key : string) (v : PyVal) : bool :=
  match v with
  | PyStr s => String.eqb s key
  | _ => false
  end.

(** [key in v] for a string [key]. *)
Definition contains (key : string) (v : PyVal) : Outcome bool :=
  match v with
  | PyDict d => Ok (existsb (fun kv => String.eqb (fst kv) key) d)
  | PyList l => Ok (existsb (is_str key) l)
  | PyStr s => Ok (str_contains key s)
  | PyNone | PyBool _ | PyInt _ | PyFloat _ =>
      Raise (TypeError "argument is not iterable")
  end.

Fixpoint dict_get (key : string) (d : list (string * PyVal)) : option PyVal :=
  match d with
  | [] => None
  | (k, v) :: rest => if String.eqb k key then Some v else dict_get key rest
  end.

(** [v[key]] for a string [key]. *)
Definition getitem (v : PyVal) (key : string) : Outcome PyVal :=
  match v with
  | PyDict d =>
      match dict_get key d with
      | Some x => Ok x
      | None => Raise (KeyError key)
      end
  | PyList _ | PyStr _ => Raise (TypeError "indices must be integers")
  | PyNone | PyBool _ | PyInt _ | PyFloat _ =>
      Raise (TypeError "object is not subscriptable")
  end.

(** [a // b] on integers. *)
Definition floordiv (a b : Z) : Outcome Z :=
  if b =? 0 then Raise ZeroDivisionError else Ok (a / b).

(** [sep.join(parts)]. *)
Definition join (sep : string) (parts : list string) : string :=
  String.concat sep parts.

(** Truth value of a list. *)
Definition truthy {A : Type} (l : list A) : bool :=
  match l with
  | [] => false
  | _ :: _ => true
  end.

End Py.
Import Py.

(** ** [uuid.uuid4().hex] *)

Module UUID.

Definition hex_char (d : N) : ascii :=
  match d with
  | 0 => "0" | 1 => "1" | 2 => "2" | 3 => "3" | 4 => "4" | 5 => "5"
  | 6 => "6" | 7 => "7" | 8 => "8" | 9 => "9" | 10 => "a" | 11 => "b"
  | 12 => "c" | 13 => "d" | 14 => "e" | _ => "f"
  end%N%char.

(** ['%0<width>x' % n] for [n] below [16 ^ width]: the [width] low
    hexadecimal digits of [n], most significant first. *)
Fixpoint hex_fixed (width : nat) (n : N) (acc : string) : string :=
  match width with
  | O => acc
  | S w => hex_fixed w (N.div n 16) (String (hex_char (N.modulo n 16)) acc)
  end.

(** [UUID(bytes=os.urandom(16), version=4).int], where [rnd] is the
    big-endian value of the sixteen random bytes: the variant bits are
    forced to RFC 4122 and the version nibble to 4. *)
Definition uuid4 (rnd : N) : N :=
  let i := N.modulo rnd (2 ^ 128) in
  let i := N.ldiff i (N.shiftl 49152 48) in
  let i := N.lor i (N.shiftl 32768 48) in
  let i := N.ldiff i (N.shiftl 61440 64) in
  N.lor i (N.shiftl 4 76).

(** [UUID.hex]: ['%032x' % self.int]. *)
Definition hex (u : N) : string := hex_fixed 32 u "".

End UUID.

(** ** Audio units *)

Module Rtc.

(** Modelled from the spec: [livekit.rtc.AudioFrame] is a type of the
    conferencing SDK, not of this repository; section 3 of the spec gives it
    as the AudioChunk record of sample count per channel, sample rate,
    channel count and raw sample bytes. *)
Record AudioFrame : Type := mkAudioFrame {
  samples_per_channel : Z;
  sample_rate : Z;
  num_channels : Z;
  data : list Byte.byte
}.

(** Modelled from the spec: [livekit.agents.tts.SynthesizedAudio] is a type
    of the conferencing SDK; section 3 of the spec gives it as the
    SynthesizedUnit pair of an AudioChunk and a correlation identifier. On
    the success path the identifier is whatever the service's JSON holds
    under ["transcriptionId"], hence a [PyVal]. *)
Record SynthesizedAudio : Type := mkSynthesizedAudio {
  frame : AudioFrame;
  request_id : PyVal
}.

End Rtc.

(** ** The remote service *)

Module Http.

(** A Python [dict] from strings to strings (JSON payload, headers), items
    in insertion order. *)
Definition Dict : Type := list (string * string).

Fixpoint lookup (key : string) (d : Dict) : option string :=
  match d with
  | [] => None
  | (k, v) :: rest => if String.eqb k key then Some v else lookup key rest
  end.

(** What the adapter reads of an [httpx.Response]: the status and the result
    of [response.json()], which raises when the body is not JSON. *)
Record Response : Type := mkResponse {
  status_code : Z;
  json : Outcome PyVal
}.

(** An opened response stream: the chunks [aiter_bytes()] delivers, in
    order, and how the stream ends: closed by the service ([None]) or broken
    by a transport exception. *)
Record Stream : Type := mkStream {
  chunks : list (list Byte.byte);
  broken : option PyExc
}.

(** The service as the adapter sees it: each call either raises or answers.
    A streaming GET is addressed by the text before the identifier and the
    identifier itself; the URL sent is the first followed by [str] of the
    second. *)
Record Remote : Type := mkRemote {
  post : string -> Dict -> Dict -> Outcome Response;
  stream : string -> PyVal -> Dict -> Outcome Stream
}.

End Http.

(** ** Generator runs: traces and exceptions *)

Inductive Event : Type :=
| Post (url : string) (payload : Http.Dict) (headers : Http.Dict)
| Get (url : string) (id : PyVal) (headers : Http.Dict)
| Yield (u : Rtc.SynthesizedAudio).

(** A finished run of a coroutine or generator body: the events in the order
    they happened, and the way the body ended. *)
Definition Gen (A : Type) : Type := (list Event * Outcome A)%type.

Definition ret {A : Type} (a : A) : Gen A := ([], Ok a).

Definition raise {A : Type} (e : PyExc) : Gen A := ([], Raise e).

Definition lift {A : Type} (o : Outcome A) : Gen A := ([], o).

Definition bind {A B : Type} (m : Gen A) (k : A -> Gen B) : Gen B :=
  match m with
  | (t, Ok a) => let (t', r) := k a in ((t ++ t')%list, r)
  | (t, Raise e) => (t, Raise e)
  end.

Notation "x <- m ;; k" := (bind m (fun x => k))
  (at level 61, m at next level, right associativity).
Notation "m ;;; k" := (bind m (fun _ => k))
  (at level 61, right associativity).

(** [try: m except Exception as e: h e]. *)
Definition try_except {A : Type} (m : Gen A) (h : PyExc -> Gen A) : Gen A :=
  match m with
  | (t, Ok a) => (t, Ok a)
  | (t, Raise e) => let (t', r) := h e in ((t ++ t')%list, r)
  end.

(** [yield u]. The consumer is taken to resume the generator normally. *)
Definition yield (u : Rtc.SynthesizedAudio) : Gen unit := ([Yield u], Ok tt).

(** [await client.post(url, json=payload, headers=headers)]. *)
Definition client_post (remote : Http.Remote) (url : string)
    (payload headers : Http.Dict) : Gen Http.Response :=
  ([Post url payload headers], Http.post remote url payload headers).

(** [async with client.stream("GET", url, headers=headers) as stream]. *)
Definition client_stream (remote : Http.Remote) (url : string) (id : PyVal)
    (headers : Http.Dict) : Gen Http.Stream :=
  ([Get url id headers], Http.stream remote url id headers).

(** [async for chunk in stream.aiter_bytes(): body chunk]. *)
Fixpoint aiter_bytes (chunks : list (list Byte.byte)) (broken : option PyExc)
    (body : list Byte.byte -> Gen unit) : Gen unit :=
  match chunks with
  | [] =>
      match broken with
      | None => ret tt
      | Some e => raise e
      end
  | chunk :: rest => body chunk ;;; aiter_bytes rest broken body
  end.

(** What calling an [async def] function gives back, before anything of its
    body has run: an asynchronous generator when the body contains [yield],
    a coroutine otherwise. *)
Inductive Called (A : Type) : Type :=
| AsyncGenerator (body : Gen A)
| Coroutine (body : Gen A).
Arguments AsyncGenerator {A} body.
Arguments Coroutine {A} body.

(** [await c]: runs a coroutine; an asynchronous generator is not awaitable
    and none of its body runs. *)
Definition await {A : Type} (c : Called A) : Gen A :=
  match c with
  | Coroutine body => body
  | AsyncGenerator _ =>
      raise (TypeError "object async_generator can't be used in 'await' expression")
  end.

(** [async for x in c: yield x]: runs an asynchronous generator, passing on
    what it yields. *)
Definition async_for {A : Type} (c : Called A) : Gen A :=
  match c with
  | AsyncGenerator body => body
  | Coroutine _ =>
      raise (TypeError "'async for' requires an object with __aiter__ method")
  end.

Definition calls_of (t : list Event) : list Event :=
  filter (fun ev => match ev with Yield _ => false | _ => true end) t.

Fixpoint units_of (t : list Event) : list Rtc.SynthesizedAudio :=
  match t with
  | [] => []
  | Yield u :: rest => u :: units_of rest
  | _ :: rest => units_of rest
  end.

(** ** class PlayHTTTS *)

Record Capabilities : Type := mkCapabilities {
  streaming : bool
}.

(** The attributes of an adapter instance. [_events] is the registry of the
    [EventEmitter] base class, its callbacks kept as opaque handles. *)
Record PlayHTTTS : Type := mkPlayHTTTS {
  _events : list (string * list nat);
  api_url : string;
  api_key : string;
  user_id : string;
  voice : string;
  voice_engine : string;
  headers : Http.Dict;
  capabilities : Capabilities;
  _input_buffer : list string;
  _is_input_done : bool;
  sample_rate : Z;
  num_channels : Z
}.

(** [PlayHTTTS(api_key, user_id, voice)]. *)
Definition __init__ (api_key user_id voice : string) : PlayHTTTS :=
  {| _events := [];
     api_url := "https://play.ht/api/v1";
     api_key := api_key;
     user_id := user_id;
     voice := voice;
     voice_engine := "Play3.0-mini-http";
     headers := [ ("Authorization", "Bearer " ++ api_key);
                  ("X-User-ID", user_id);
                  ("Content-Type", "application/json") ];
     capabilities := {| streaming := true |};
     _input_buffer := [];
     _is_input_done := false;
     sample_rate := 44100;
     num_channels := 1 |}.

(** [self._input_buffer = buffer]. *)
Definition set_input_buffer (self : PlayHTTTS) (buffer : list string) : PlayHTTTS :=
  {| _events := _events self;
     api_url := api_url self;
     api_key := api_key self;
     user_id := user_id self;
     voice := voice self;
     voice_engine := voice_engine self;
     headers := headers self;
     capabilities := capabilities self;
     _input_buffer := buffer;
     _is_input_done := _is_input_done self;
     sample_rate := sample_rate self;
     num_channels := num_channels self |}.

(** [self._is_input_done = done]. *)
Definition set_is_input_done (self : PlayHTTTS) (done : bool) : PlayHTTTS :=
  {| _events := _events self;
     api_url := api_url self;
     api_key := api_key self;
     user_id := user_id self;
     voice := voice self;
     voice_engine := voice_engine self;
     headers := headers self;
     capabilities := capabilities self;
     _input_buffer := _input_buffer self;
     _is_input_done := done;
     sample_rate := sample_rate self;
     num_channels := num_channels self |}.

Definition stream (self : PlayHTTTS) : PlayHTTTS := self.

Definition push_text (self : PlayHTTTS) (text : string) : PlayHTTTS :=
  set_input_buffer self (_input_buffer self ++ [text])%list.

Definition end_input (self : PlayHTTTS) : PlayHTTTS :=
  set_is_input_done self true.

Definition aclose (self : PlayHTTTS) : PlayHTTTS :=
  set_is_input_done self true.

(** The unit built in each of the three failure branches of
    [synthesize_stream]: [rnd] is the random source of the [uuid.uuid4()]
    drawn there. *)
Definition error_audio (self : PlayHTTTS) (rnd : N) : Rtc.SynthesizedAudio :=
  let request_id := "error-" ++ substring 0 8 (UUID.hex (UUID.uuid4 rnd)) in
  let raw_frame :=
    {| Rtc.samples_per_channel := 80;
       Rtc.sample_rate := sample_rate self;
       Rtc.num_channels := num_channels self;
       Rtc.data := repeat Byte.x00 160 |} in
  {| Rtc.frame := raw_frame; Rtc.request_id := PyStr request_id |}.

(** The local [payload] of [synthesize_stream]. *)
Definition payload (self : PlayHTTTS) (text : string) : Http.Dict :=
  [ ("voice", voice self);
    ("content", text);
    ("format", "mp3");
    ("voice_engine", voice_engine self) ].

(** The body of the [try] block of [synthesize_stream]. The two early
    [return]s are the ends of their branches. The attributes of [self] read
    here are written by no method after [__init__], so reading them at the
    start of the run is the same as reading them as the generator goes. *)
Definition synthesize_try (remote : Http.Remote) (rnd : N) (self : PlayHTTTS)
    (text : string) : Gen unit :=
  response <- client_post remote (api_url self ++ "/convert") (payload self text)
                (headers self) ;;
  if negb (Http.status_code response =? 200) then
    yield (error_audio self rnd)
  else
    response_data <- lift (Http.json response) ;;
    has_id <- lift (contains "transcriptionId" response_data) ;;
    if negb has_id then
      yield (error_audio self rnd)
    else
      transcription_id <- lift (getitem response_data "transcriptionId") ;;
      stream <- client_stream remote (api_url self ++ "/stream/") transcription_id
                  (headers self) ;;
      aiter_bytes (Http.chunks stream) (Http.broken stream) (fun chunk =>
        samples_per_channel <-
          lift (floordiv (Z.of_nat (List.length chunk)) (2 * num_channels self)) ;;
        let raw_frame :=
          {| Rtc.samples_per_channel := samples_per_channel;
             Rtc.sample_rate := sample_rate self;
             Rtc.num_channels := num_channels self;
             Rtc.data := chunk |} in
        yield {| Rtc.frame := raw_frame; Rtc.request_id := transcription_id |}).

(** [self.synthesize_stream(text)]: an asynchronous generator, since its
    body yields. *)
Definition synthesize_stream (remote : Http.Remote) (rnd : N) (self : PlayHTTTS)
    (text : string) : Called unit :=
  AsyncGenerator
    (try_except (synthesize_try remote rnd self text)
                (fun _ => yield (error_audio self rnd))).

(** [await self.flush()], run to its end: the adapter afterwards, and what
    the run did. An exception leaves the adapter as it was when raised. *)
Definition flush (remote : Http.Remote) (rnd : N) (self : PlayHTTTS)
    : PlayHTTTS * Gen unit :=
  if truthy (_input_buffer self) then
    let paragraph := join " " (_input_buffer self) in
    match await (synthesize_stream remote rnd self paragraph) with
    | (t, Ok _) => (set_input_buffer self [], (t, Ok tt))
    | (t, Raise e) => (self, (t, Raise e))
    end
  else (self, ret tt).

(** ** The iteration protocol, [__aiter__] *)

(** Where the generator made by [__aiter__] stands between two requests for
    its next unit. *)
Inductive Pc : Type :=
| AtWhile
    (** about to test the [while] condition (so is a generator not yet
        started) *)
| InFor (inner : Gen unit)
    (** inside [async for chunk in self.synthesize_stream(text)]: what is
        left of the run of the inner generator *)
| Finished.

(** The generator object: its program point and how many times it has
    called [synthesize_stream]. The adapter itself is not part of it: the
    generator and its consumer share the one adapter object, and the
    consumer may push text or end the input between two units. *)
Record AIter : Type := mkAIter {
  pc : Pc;
  synth_calls : nat
}.

(** The world outside, per call of [synthesize_stream]: how the service
    behaves during that call and the random bytes drawn in it. *)
Record World : Type := mkWorld {
  remote_at : nat -> Http.Remote;
  urandom_at : nat -> N
}.

(** The outcome of one request for the next unit ([__anext__]). [calls] are
    the network calls awaited on the way. [OutOfFuel] reports that the given
    number of steps was spent without reaching a suspension point: no
    [yield], no network call that remains to be awaited, no end. *)
Inductive Next : Type :=
| Yielded (calls : list Event) (u : Rtc.SynthesizedAudio) (g : AIter)
    (self : PlayHTTTS)
| StopAsyncIteration (calls : list Event) (self : PlayHTTTS)
| Raised (calls : list Event) (e : PyExc) (self : PlayHTTTS)
| OutOfFuel.

(** Runs the generator from where it stands up to its next [yield] or its
    end. One unit of fuel is one test of the [while] condition, one event of
    the inner generator, or the assignment after the [async for]. *)
Fixpoint anext (fuel : nat) (w : World) (calls : list Event) (g : AIter)
    (self : PlayHTTTS) : Next :=
  match fuel with
  | O => OutOfFuel
  | S fuel' =>
      match pc g with
      | Finished => StopAsyncIteration calls self
      | AtWhile =>
          if negb (_is_input_done self) || truthy (_input_buffer self) then
            if truthy (_input_buffer self) then
              let text := join " " (_input_buffer self) in
              let n := synth_calls g in
              let inner :=
                async_for (synthesize_stream (remote_at w n) (urandom_at w n)
                             self text) in
              anext fuel' w calls {| pc := InFor inner; synth_calls := S n |} self
            else
              anext fuel' w calls g self
          else
            StopAsyncIteration calls self
      | InFor (Yield chunk :: rest, ending) =>
          Yielded calls chunk
            {| pc := InFor (rest, ending); synth_calls := synth_calls g |} self
      | InFor (call :: rest, ending) =>
          anext fuel' w (calls ++ [call])%list
            {| pc := InFor (rest, ending); synth_calls := synth_calls g |} self
      | InFor ([], Ok _) =>
          anext fuel' w calls
            {| pc := AtWhile; synth_calls := synth_calls g |}
            (set_input_buffer self [])
      | InFor ([], Raise e) => Raised calls e self
      end
  end.

(** [tts.__aiter__()]: a fresh generator. *)
Definition __aiter__ : AIter := {| pc := AtWhile; synth_calls := O |}.

(** ** Vocabulary of the specification *)

(** A status in the range 200..299. *)
Definition is_2xx (status : Z) : bool :=
  (200 <=? status) && (status <? 300).

(** The body of a response is a JSON object with no ["transcriptionId"]
    member. *)
Definition lacks_id (response : Http.Response) : bool :=
  match Http.json response with
  | Ok (PyDict d) =>
      match dict_get "transcriptionId" d with
      | Some _ => false
      | None => true
      end
  | _ => false
  end.

(** The body of a response is a JSON object whose ["transcriptionId"] member
    is [id]. *)
Definition has_id (response : Http.Response) (id : PyVal) : Prop :=
  exists d, Http.json response = Ok (PyDict d)
            /\ dict_get "transcriptionId" d = Some id.

Definition is_hex_lower (c : ascii) : bool :=
  let n := nat_of_ascii c in
  ((48 <=? n) && (n <=? 57) || (97 <=? n) && (n <=? 102))%nat.

Fixpoint all_chars (p : ascii -> bool) (s : string) : bool :=
  match s with
  | EmptyString => true
  | String c rest => p c && all_chars p rest
  end.

(** A whole-string match of [error-[0-9a-f]{8}]. *)
Definition matches_error_id (s : string) : bool :=
  String.prefix "error-" s
  && (String.length s =? 14)%nat
  && all_chars is_hex_lower (substring 6 8 s).

(** The silence sentinel unit of the specification. *)
Definition is_silence_sentinel (u : Rtc.SynthesizedAudio) : Prop :=
  Rtc.samples_per_channel (Rtc.frame u) = 80
  /\ Rtc.sample_rate (Rtc.frame u) = 44100
  /\ Rtc.num_channels (Rtc.frame u) = 1
  /\ List.length (Rtc.data (Rtc.frame u)) = 160%nat
  /\ Forall (fun b => b = Byte.x00) (Rtc.data (Rtc.frame u))
  /\ exists id, Rtc.request_id u = PyStr id /\ matches_error_id id = true.

(** The audio format every adapter is created with, and which no method
    changes. *)
Definition configured (self : PlayHTTTS) : Prop :=
  sample_rate self = 44100 /\ num_channels self = 1.

(** ** Concrete services, for examples *)

Module Sample.

(** A service that answers every POST with [response] and every streaming
    GET with [s]. *)
Definition answering (response : Http.Response) (s : Http.Stream) : Http.Remote :=
  {| Http.post := fun _ _ _ => Ok response;
     Http.stream := fun _ _ _ => Ok s |}.

Definition no_stream : Http.Stream :=
  {| Http.chunks := []; Http.broken := None |}.

Definition body_with_id : Outcome PyVal :=
  Ok (PyDict [("transcriptionId", PyStr "abc123")]).

Definition body_without_id : Outcome PyVal :=
  Ok (PyDict [("error", PyStr "quota")]).

Definition tts : PlayHTTTS := __init__ "key" "user" "Emma".

Definition chunk_of (n : nat) : list Byte.byte := repeat Byte.x2a n.

Definition world (remote : Http.Remote) : World :=
  {| remote_at := fun _ => remote; urandom_at := fun n => N.of_nat n |}.

End Sample.

(** ** One call of [synthesize_stream], seen from outside *)

(** The run of the generator when iterated to its end. *)
Definition run (remote : Http.Remote) (rnd : N) (self : PlayHTTTS)
    (text : string) : Gen unit :=
  async_for (synthesize_stream remote rnd self text).

(** The POST a call sends, and what the service answers to it. *)
Definition the_post (self : PlayHTTTS) (text : string) : Event :=
  Post (api_url self ++ "/convert") (payload self text) (headers self).

Definition post_answer (remote : Http.Remote) (self : PlayHTTTS)
    (text : string) : Outcome Http.Response :=
  Http.post remote (api_url self ++ "/convert") (payload self text) (headers self).

(** The streaming GET for the identifier [id], and the answer to it. *)
Definition the_get (self : PlayHTTTS) (id : PyVal) : Event :=
  Get (api_url self ++ "/stream/") id (headers self).

Definition stream_answer (remote : Http.Remote) (self : PlayHTTTS)
    (id : PyVal) : Outcome Http.Stream :=
  Http.stream remote (api_url self ++ "/stream/") id (headers self).

(** The unit the loop body makes from one chunk when the division is
    defined. *)
Definition audio_of (self : PlayHTTTS) (id : PyVal) (chunk : list Byte.byte)
    : Rtc.SynthesizedAudio :=
  {| Rtc.frame :=
       {| Rtc.samples_per_channel :=
            Z.of_nat (List.length chunk) / (2 * num_channels self);
          Rtc.sample_rate := sample_rate self;
          Rtc.num_channels := num_channels self;
          Rtc.data := chunk |};
     Rtc.request_id := id |}.

(** The success path as the specification describes it: after the POST, one
    streaming GET for [id], then one unit per chunk of [s], in the order of
    arrival, each carrying [id]; then the end of the sequence. *)
Definition streams_every_chunk (remote : Http.Remote) (rnd : N)
    (self : PlayHTTTS) (text : string) (id : PyVal) (s : Http.Stream) : Prop :=
  run remote rnd self text
  = (the_post self text :: the_get self id
       :: map (fun chunk => Yield (audio_of self id chunk)) (Http.chunks s),
     Ok tt).

(** Nothing to synthesize and the input not ended. *)
Definition idle (self : PlayHTTTS) : Prop :=
  _input_buffer self = [] /\ _is_input_done self = false.

(** What the consumer can call on the adapter between two units. *)
Inductive Op : Type :=
| OpPushText (text : string)
| OpEndInput
| OpClose
| OpFlush (remote : Http.Remote) (rnd : N).

Definition apply_op (self : PlayHTTTS) (op : Op) : PlayHTTTS :=
  match op with
  | OpPushText text => push_text self text
  | OpEndInput => end_input self
  | OpClose => aclose self
  | OpFlush remote rnd => fst (flush remote rnd self)
  end.

(** A generator suspended inside its [async for] goes with a non-empty
    buffer. *)
Definition in_for_has_text (g : AIter) (self : PlayHTTTS) : Prop :=
  forall inner, pc g = InFor inner -> _input_buffer self <> [].

(** ** class EventEmitter *)

Module Emitter.

(** [self._events]: event names with the callbacks registered for each, in
    the order of registration. *)
Definition Registry : Type := list (string * list nat).

(** [events[event_name]] when the name is a key. *)
Fixpoint get (event_name : string) (events : Registry) : option (list nat) :=
  match events with
  | [] => None
  | (name, callbacks) :: rest =>
      if String.eqb name event_name then Some callbacks else get event_name rest
  end.

(** The body of the decorator of [on]: a new key gets an empty list first,
    then the callback is appended to the list of the key. *)
Fixpoint register (event_name : string) (callback : nat) (events : Registry)
    : Registry :=
  match events with
  | [] => [(event_name, [callback])]
  | (name, callbacks) :: rest =>
      if String.eqb name event_name
      then (name, callbacks ++ [callback])%list :: rest
      else (name, callbacks) :: register event_name callback rest
  end.

(** What the callbacks do when called with the arguments of an emission:
    each acts on a state [S] the callbacks share and returns or raises.
    Callbacks are taken not to register callbacks themselves. *)
Definition Behaviour (S : Type) : Type := nat -> S -> S * Outcome unit.

(** What an emission did: the state left, the callbacks called, in order,
    and the errors logged, each with the callback that raised it. *)
Record Emitted (S : Type) : Type := mkEmitted {
  state : S;
  called : list nat;
  logged : list (nat * PyExc)
}.
Arguments mkEmitted {S} state called logged.
Arguments state {S} e.
Arguments called {S} e.
Arguments logged {S} e.

(** The loop of [emit]: every callback runs inside its own [try]; what it
    raises is logged and the loop goes on. *)
Fixpoint call_each {S : Type} (behaviour : Behaviour S) (callbacks : list nat)
    (s : S) : Emitted S :=
  match callbacks with
  | [] => mkEmitted s [] []
  | callback :: rest =>
      let (s', result) := behaviour callback s in
      let after := call_each behaviour rest s' in
      mkEmitted (state after) (callback :: called after)
        match result with
        | Ok _ => logged after
        | Raise e => (callback, e) :: logged after
        end
  end.

End Emitter.

(** [self._events = events]. *)
Definition set_events (self : PlayHTTTS) (events : Emitter.Registry) : PlayHTTTS :=
  {| _events := events;
     api_url := api_url self;
     api_key := api_key self;
     user_id := user_id self;
     voice := voice self;
     voice_engine := voice_engine self;
     headers := headers self;
     capabilities := capabilities self;
     _input_buffer := _input_buffer self;
     _is_input_done := _is_input_done self;
     sample_rate := sample_rate self;
     num_channels := num_channels self |}.

(** [self.on(event_name)(callback)]: the decorator registers the callback
    and gives it back. *)
Definition on (self : PlayHTTTS) (event_name : string) (callback : nat)
    : PlayHTTTS * nat :=
  (set_events self (Emitter.register event_name callback (_events self)),
   callback).

(** [self.emit(event_name, *args, **kwargs)]. *)
Definition emit {S : Type} (behaviour : Emitter.Behaviour S) (self : PlayHTTTS)
    (event_name : string) (s : S) : Emitter.Emitted S :=
  match Emitter.get event_name (_events self) with
  | Some callbacks => Emitter.call_each behaviour callbacks s
  | None => Emitter.mkEmitted s [] []
  end.

(** ** Consuming the iteration *)

(** The calls a run makes up to its next [yield], and what follows it. *)
Fixpoint next_yield (t : list Event)
    : list Event * option (Rtc.SynthesizedAudio * list Event) :=
  match t with
  | [] => ([], None)
  | Yield u :: rest => ([], Some (u, rest))
  | call :: rest => let (calls, found) := next_yield rest in (call :: calls, found)
  end.

(** How a consumption ended: the sequence ended, an exception came out of
    it, the generator used up its steps without reaching a suspension point,
    or the consumer stopped asking. *)
Inductive Ending : Type :=
| Ended (self : PlayHTTTS)
| Failed (e : PyExc) (self : PlayHTTTS)
| Hung
| Unfinished.

(** [async for unit in tts: units.append(unit)], for a consumer that does
    nothing else to the adapter: the units received, the network calls made
    on the way, and the end, for at most [rounds] requests of [fuel] steps. *)
Fixpoint consume (rounds fuel : nat) (w : World) (g : AIter) (self : PlayHTTTS)
    : list Rtc.SynthesizedAudio * list Event * Ending :=
  match rounds with
  | O => ([], [], Unfinished)
  | S rounds' =>
      match anext fuel w [] g self with
      | Yielded calls u g' self' =>
          let '(units, calls', ending) := consume rounds' fuel w g' self' in
          (u :: units, (calls ++ calls')%list, ending)
      | StopAsyncIteration calls self' => ([], calls, Ended self')
      | Raised calls e self' => ([], calls, Failed e self')
      | OutOfFuel => ([], [], Hung)
      end
  end.

(** What every generator handed back by a request looks like: inside the
    [async for] of its first call of [synthesize_stream]. *)
Definition in_first_call (g : AIter) : Prop :=
  synth_calls g = 1%nat /\ exists inner, pc g = InFor inner.

(** ** The transcript files of agent.py and agent2.py *)

Module Fs.

(** The result of a file-system operation: done, or an [OSError] (a
    subclass of [Exception]). *)
Inductive Result : Type :=
| Done
| OSError (msg : string).

(** The file system as the agents meet it: whether creating the directory
    and opening the file succeed, and which write, counted from 0, is the
    first to fail, if any. *)
Record Disk : Type := mkDisk {
  makedirs : Result;
  open_ : Result;
  failing_write : option (nat * string)
}.

(** The operations that succeeded, in order. *)
Inductive Call : Type :=
| Makedirs (path : string) (exist_ok : bool)
| Open (path mode encoding : string)
| Write (data : string).

Definition newline : string := String "010"%char "".

(** [str(i)] for a non-negative integer. *)
Definition str (i : nat) : string := NilEmpty.string_of_uint (Nat.to_uint i).

(** [for i, line in enumerate(lines, start=i): f"{label}{i}: {line}\n"]:
    the strings the loop hands to [file.write]. *)
Fixpoint numbered (label : string) (i : nat) (lines : list string) : list string :=
  match lines with
  | [] => []
  | line :: rest =>
      (label ++ str i ++ ": " ++ line ++ newline) :: numbered label (S i) rest
  end.

(** [file.write] on each string in turn, [written] writes having been made
    on the file before: stops at the write that fails. *)
Fixpoint write_each (disk : Disk) (written : nat) (datas : list string)
    : list Call * Result :=
  match datas with
  | [] => ([], Done)
  | data :: rest =>
      match failing_write disk with
      | Some (k, msg) =>
          if Nat.eqb k written then ([], OSError msg)
          else let (t, r) := write_each disk (S written) rest in (Write data :: t, r)
      | None =>
          let (t, r) := write_each disk (S written) rest in (Write data :: t, r)
      end
  end.

Definition output_dir : string := "/Users/7one/Documents/Work/mangoesai/voiceagent".

(** [os.path.join(output_dir, "stt_transcripts.txt")]. *)
Definition output_file : string := output_dir ++ "/" ++ "stt_transcripts.txt".

(** The frame shared by both versions of [save_transcripts_to_file]:
    [os.makedirs] outside the [try], so that its error goes to the caller;
    [open] and the writes inside it, so that theirs is logged and dropped. *)
Definition save (disk : Disk) (datas : list string) : list Call * Result :=
  match makedirs disk with
  | OSError msg => ([], OSError msg)
  | Done =>
      match open_ disk with
      | OSError _ => ([Makedirs output_dir true], Done)
      | Done =>
          let (t, _) := write_each disk 0 datas in
          (Makedirs output_dir true :: Open output_file "w" "utf-8" :: t, Done)
      end
  end.

(** The strings written, in order. *)
Fixpoint writes_of (t : list Call) : list string :=
  match t with
  | [] => []
  | Write data :: rest => data :: writes_of rest
  | _ :: rest => writes_of rest
  end.

End Fs.

(** agent.py *)
Module Agent.

(** [proc.userdata]: the loaded voice-activity detector, an opaque handle,
    and the transcripts heard. *)
Record UserData : Type := mkUserData {
  vad : nat;
  stt_transcripts : list string
}.

(** [prewarm(proc)], [loaded] being what [silero.VAD.load()] returns. *)
Definition prewarm (loaded : nat) (userdata : UserData) : UserData :=
  {| vad := loaded; stt_transcripts := [] |}.

(** The handler [on_user_transcript] of [entrypoint]. *)
Definition on_user_transcript (userdata : UserData) (transcript : string)
    : UserData :=
  {| vad := vad userdata;
     stt_transcripts := (stt_transcripts userdata ++ [transcript])%list |}.

Definition save_transcripts_to_file (disk : Fs.Disk) (transcripts : list string)
    : list Fs.Call * Fs.Result :=
  Fs.save disk (Fs.numbered "" 1 transcripts).

End Agent.

(** agent2.py *)
Module Agent2.

(** [proc.userdata["transcripts"]]: a dictionary with the two keys ["user"]
    and ["agent"]. *)
Record Transcripts : Type := mkTranscripts {
  user : list string;
  agent : list string
}.

Record UserData : Type := mkUserData {
  vad : nat;
  transcripts : Transcripts
}.

Definition prewarm (loaded : nat) (userdata : UserData) : UserData :=
  {| vad := loaded; transcripts := {| user := []; agent := [] |} |}.

Definition on_user_transcript (userdata : UserData) (transcript : string)
    : UserData :=
  {| vad := vad userdata;
     transcripts :=
       {| user := (user (transcripts userdata) ++ [transcript])%list;
          agent := agent (transcripts userdata) |} |}.

Definition on_agent_transcript (userdata : UserData) (transcript : string)
    : UserData :=
  {| vad := vad userdata;
     transcripts :=
       {| user := user (transcripts userdata);
          agent := (agent (transcripts userdata) ++ [transcript])%list |} |}.

Definition save_transcripts_to_file (disk : Fs.Disk) (transcripts : Transcripts)
    : list Fs.Call * Fs.Result :=
  let user_header := "=== User Transcripts ===" ++ Fs.newline in
  let agent_header := Fs.newline ++ "=== Agent Transcripts ===" ++ Fs.newline in
  Fs.save disk
    (user_header :: Fs.numbered "User " 1 (user transcripts)
       ++ agent_header :: Fs.numbered "Agent " 1 (agent transcripts))%list.

End Agent2.

(** ** Facts about the building blocks *)

Lemma hex_char_lower (d : N) : is_hex_lower (UUID.hex_char d) = true.
Proof.
  destruct d as [|p]; [reflexivity|].
  repeat (destruct p as [p|p|]; try reflexivity).
Qed.

Lemma hex_fixed_length (width : nat) :
  forall n acc,
    String.length (UUID.hex_fixed width n acc) = (width + String.length acc)%nat.
Proof.
  induction width as [|w IH]; intros n acc; simpl.
  - reflexivity.
  - rewrite IH. simpl. lia.
Qed.

Lemma hex_fixed_lower (width : nat) :
  forall n acc,
    all_chars is_hex_lower acc = true ->
    all_chars is_hex_lower (UUID.hex_fixed width n acc) = true.
Proof.
  induction width as [|w IH]; intros n acc Hacc; simpl.
  - exact Hacc.
  - apply IH. simpl. now rewrite hex_char_lower.
Qed.

Lemma substring_0_length (k : nat) :
  forall s, (k <= String.length s)%nat -> String.length (substring 0 k s) = k.
Proof.
  induction k as [|k IH]; intros [|c s] Hk; simpl in *; try reflexivity; try lia.
  rewrite IH; [reflexivity | lia].
Qed.

Lemma substring_0_all (p : ascii -> bool) (k : nat) :
  forall s, all_chars p s = true -> all_chars p (substring 0 k s) = true.
Proof.
  induction k as [|k IH]; intros [|c s] Hs; simpl in *; try reflexivity.
  apply andb_true_iff in Hs as [Hc Hs]. rewrite Hc. now apply IH.
Qed.

Lemma substring_0_whole (s : string) : substring 0 (String.length s) s = s.
Proof.
  induction s as [|c s IH]; simpl; [reflexivity | now rewrite IH].
Qed.

(** Every identifier drawn in a failure branch matches
    [error-[0-9a-f]{8}], whatever the random bytes. *)
Lemma error_id_matches (rnd : N) :
  matches_error_id ("error-" ++ substring 0 8 (UUID.hex (UUID.uuid4 rnd))) = true.
Proof.
  set (h := substring 0 8 (UUID.hex (UUID.uuid4 rnd))).
  assert (Hlen : String.length h = 8%nat).
  { apply substring_0_length. unfold UUID.hex. rewrite hex_fixed_length. simpl. lia. }
  assert (Hall : all_chars is_hex_lower h = true).
  { apply substring_0_all. unfold UUID.hex. now apply hex_fixed_lower. }
  unfold matches_error_id.
  change ("error-" ++ h) with
    (String "e" (String "r" (String "r" (String "o" (String "r" (String "-" h)))))).
  cbn [String.prefix String.length substring].
  repeat match goal with
         | |- context [Ascii.ascii_dec ?a ?a] =>
             destruct (Ascii.ascii_dec a a) as [_|Hne]; [|now elim Hne]
         end.
  rewrite Hlen. cbn [Nat.eqb andb].
  rewrite <- Hlen at 1. now rewrite substring_0_whole.
Qed.

Lemma error_audio_is_sentinel (self : PlayHTTTS) (rnd : N) :
  configured self -> is_silence_sentinel (error_audio self rnd).
Proof.
  intros [Hrate Hchan]. unfold is_silence_sentinel, error_audio. cbn [Rtc.frame
    Rtc.samples_per_channel Rtc.sample_rate Rtc.num_channels Rtc.data Rtc.request_id].
  split; [reflexivity|]. split; [exact Hrate|]. split; [exact Hchan|].
  split; [apply repeat_length|]. split.
  - apply Forall_forall. intros b Hb. now apply repeat_spec in Hb.
  - eexists. split; [reflexivity | apply error_id_matches].
Qed.

Lemma dict_get_none (key : string) (d : list (string * PyVal)) :
  dict_get key d = None ->
  existsb (fun kv => String.eqb (fst kv) key) d = false.
Proof.
  induction d as [|[k v] d IH]; simpl; [reflexivity|].
  destruct (String.eqb k key); [discriminate | exact IH].
Qed.

Lemma dict_get_some (key : string) (d : list (string * PyVal)) (v : PyVal) :
  dict_get key d = Some v ->
  existsb (fun kv => String.eqb (fst kv) key) d = true.
Proof.
  induction d as [|[k x] d IH]; simpl; [discriminate|].
  destruct (String.eqb k key); [reflexivity | exact IH].
Qed.

(** The class invariant: set by the constructor, kept by every method. *)
Lemma init_configured (key user v : string) : configured (__init__ key user v).
Proof. split; reflexivity. Qed.

Lemma push_text_configured (self : PlayHTTTS) (fragment : string) :
  configured self -> configured (push_text self fragment).
Proof. intros H. exact H. Qed.

Lemma end_input_configured (self : PlayHTTTS) :
  configured self -> configured (end_input self).
Proof. intros H. exact H. Qed.

Lemma aiter_bytes_yields (f : list Byte.byte -> Rtc.SynthesizedAudio)
    (body : list Byte.byte -> Gen unit) (broken : option PyExc) :
  (forall chunk, body chunk = ([Yield (f chunk)], Ok tt)) ->
  forall chunks,
    aiter_bytes chunks broken body
    = (map (fun chunk => Yield (f chunk)) chunks,
       match broken with None => Ok tt | Some e => Raise e end).
Proof.
  intros Hbody chunks. induction chunks as [|chunk rest IH]; simpl.
  - destruct broken; reflexivity.
  - unfold bind. rewrite Hbody, IH. reflexivity.
Qed.

Lemma units_of_yields (f : list Byte.byte -> Rtc.SynthesizedAudio)
    (chunks : list (list Byte.byte)) (rest : list Event) :
  units_of (map (fun chunk => Yield (f chunk)) chunks ++ rest)%list
  = (map f chunks ++ units_of rest)%list.
Proof.
  induction chunks as [|chunk chunks IH]; simpl; [reflexivity | now rewrite IH].
Qed.

Lemma units_of_only_yields (f : list Byte.byte -> Rtc.SynthesizedAudio)
    (chunks : list (list Byte.byte)) :
  units_of (map (fun chunk => Yield (f chunk)) chunks) = map f chunks.
Proof.
  rewrite <- (app_nil_r (map _ chunks)), units_of_yields. apply app_nil_r.
Qed.

Lemma odd_length_split (n : Z) : Z.odd n = true -> n = 2 * (n / 2) + 1.
Proof.
  intros Hodd. pose proof (Z.div_mod n 2 ltac:(lia)) as Hdm.
  rewrite Zmod_odd, Hodd in Hdm. exact Hdm.
Qed.

(** ** What one call of [synthesize_stream] does *)

Section Synthesis.

Variable remote : Http.Remote.
Variable rnd : N.
Variable self : PlayHTTTS.
Variable text : string.

Lemma run_unfold :
  run remote rnd self text
  = try_except (synthesize_try remote rnd self text)
               (fun _ => yield (error_audio self rnd)).
Proof. reflexivity. Qed.

(** Iterated as a generator, the call never ends by an exception: whatever
    the [try] block raises is turned into one more unit. *)
Lemma run_returns : snd (run remote rnd self text) = Ok tt.
Proof.
  rewrite run_unfold.
  destruct (synthesize_try remote rnd self text) as [t [[]|e]]; reflexivity.
Qed.

(** Whatever the [try] block raises, after whatever it had yielded, is
    answered by one closing unit from the [except] branch. *)
Lemma run_converts_exception (t : list Event) (e : PyExc) :
  synthesize_try remote rnd self text = (t, Raise e) ->
  run remote rnd self text = (t ++ [Yield (error_audio self rnd)], Ok tt)%list.
Proof. intros Htry. rewrite run_unfold, Htry. reflexivity. Qed.

Ltac enter_try :=
  rewrite run_unfold;
  unfold synthesize_try, client_post, client_stream, bind, lift;
  fold (post_answer remote self text).

Lemma run_post_raises (e : PyExc) :
  post_answer remote self text = Raise e ->
  run remote rnd self text
  = ([the_post self text; Yield (error_audio self rnd)], Ok tt).
Proof. intros Hpost. enter_try. rewrite Hpost. reflexivity. Qed.

Lemma run_not_200 (response : Http.Response) :
  post_answer remote self text = Ok response ->
  Http.status_code response <> 200 ->
  run remote rnd self text
  = ([the_post self text; Yield (error_audio self rnd)], Ok tt).
Proof.
  intros Hpost Hstatus. enter_try. rewrite Hpost.
  apply Z.eqb_neq in Hstatus. rewrite Hstatus. reflexivity.
Qed.

Lemma run_json_raises (response : Http.Response) (e : PyExc) :
  post_answer remote self text = Ok response ->
  Http.status_code response = 200 ->
  Http.json response = Raise e ->
  run remote rnd self text
  = ([the_post self text; Yield (error_audio self rnd)], Ok tt).
Proof.
  intros Hpost Hstatus Hjson. enter_try. rewrite Hpost, Hstatus, Hjson.
  reflexivity.
Qed.

Lemma run_no_id (response : Http.Response) (response_data : PyVal) :
  post_answer remote self text = Ok response ->
  Http.status_code response = 200 ->
  Http.json response = Ok response_data ->
  contains "transcriptionId" response_data = Ok false ->
  run remote rnd self text
  = ([the_post self text; Yield (error_audio self rnd)], Ok tt).
Proof.
  intros Hpost Hstatus Hjson Hin. enter_try.
  rewrite Hpost, Hstatus, Hjson, Hin. reflexivity.
Qed.

Lemma run_stream_raises (response : Http.Response) (id : PyVal) (e : PyExc) :
  post_answer remote self text = Ok response ->
  Http.status_code response = 200 ->
  has_id response id ->
  stream_answer remote self id = Raise e ->
  run remote rnd self text
  = ([the_post self text; the_get self id; Yield (error_audio self rnd)], Ok tt).
Proof.
  intros Hpost Hstatus (d & Hjson & Hget) Hstream. enter_try.
  rewrite Hpost, Hstatus, Hjson. cbn [contains getitem].
  rewrite (dict_get_some _ _ _ Hget), Hget. cbn [negb].
  fold (stream_answer remote self id). rewrite Hstream. reflexivity.
Qed.

(** The whole trace of the success path, also for a stream that breaks. *)
Lemma run_success (response : Http.Response) (id : PyVal) (s : Http.Stream) :
  num_channels self <> 0 ->
  post_answer remote self text = Ok response ->
  Http.status_code response = 200 ->
  has_id response id ->
  stream_answer remote self id = Ok s ->
  run remote rnd self text
  = ((the_post self text :: the_get self id
        :: map (fun chunk => Yield (audio_of self id chunk)) (Http.chunks s))
     ++ match Http.broken s with
        | None => []
        | Some _ => [Yield (error_audio self rnd)]
        end,
     Ok tt)%list.
Proof.
  intros Hchan Hpost Hstatus (d & Hjson & Hget) Hstream. enter_try.
  rewrite Hpost, Hstatus, Hjson. cbn [contains getitem].
  rewrite (dict_get_some _ _ _ Hget), Hget. cbn [negb].
  fold (stream_answer remote self id). rewrite Hstream.
  rewrite (aiter_bytes_yields (audio_of self id)).
  - destruct (Http.broken s); cbn; rewrite ?app_nil_r; reflexivity.
  - intros chunk. unfold floordiv, bind, lift.
    destruct (Z.eqb_spec (2 * num_channels self) 0) as [Hz|_]; [lia|].
    reflexivity.
Qed.

End Synthesis.

(** ** The claims about [synthesize_stream] *)

(** C1. When the POST to the convert endpoint is answered with a status
    outside 200..299, or with status 200 and a JSON object that has no
    ["transcriptionId"] member, the generator yields exactly one unit, the
    silence sentinel (80 samples per channel, 44100 Hz, one channel, 160 zero
    bytes, an identifier matching [error-[0-9a-f]{8}]), and then ends: the
    whole run is the POST followed by that single unit. *)
Theorem failure_yields_one_sentinel (remote : Http.Remote) (rnd : N)
    (self : PlayHTTTS) (text : string) (response : Http.Response) :
  configured self ->
  post_answer remote self text = Ok response ->
  is_2xx (Http.status_code response) = false
  \/ (Http.status_code response = 200 /\ lacks_id response = true) ->
  exists u,
    run remote rnd self text = ([the_post self text; Yield u], Ok tt)
    /\ is_silence_sentinel u.
Proof.
  intros Hconf Hpost Hfail.
  exists (error_audio self rnd). split; [|now apply error_audio_is_sentinel].
  destruct Hfail as [Hstatus | [Hstatus Hlacks]].
  - apply (run_not_200 _ _ _ _ response Hpost).
    intros H200. rewrite H200 in Hstatus. discriminate Hstatus.
  - unfold lacks_id in Hlacks.
    destruct (Http.json response) as [[| | | | | |d]|e] eqn:Hjson;
      try discriminate Hlacks.
    destruct (dict_get "transcriptionId" d) eqn:Hget; [discriminate Hlacks|].
    apply (run_no_id _ _ _ _ response (PyDict d) Hpost Hstatus Hjson).
    cbn [contains]. now rewrite (dict_get_none _ _ Hget).
Qed.

Lemma failure_yields_one_sentinel_witness :
  exists u,
    run (Sample.answering
           {| Http.status_code := 200; Http.json := Sample.body_without_id |}
           Sample.no_stream)
        7 Sample.tts "Hello world"
    = ([the_post Sample.tts "Hello world"; Yield u], Ok tt)
    /\ is_silence_sentinel u.
Proof.
  apply (failure_yields_one_sentinel _ _ _ _
           {| Http.status_code := 200; Http.json := Sample.body_without_id |}).
  - split; reflexivity.
  - reflexivity.
  - right. split; reflexivity.
Defined.

(** C5, as amended. On the success path, a stream delivering two chunks of
    320 and 4 bytes gives two units with 160 and 2 samples per channel, each
    count being the byte length divided by (2 * 1), and both units carry the
    identifier the service returned. *)
Theorem chunk_slicing (remote : Http.Remote) (rnd : N) (self : PlayHTTTS)
    (text : string) (response : Http.Response) (id : PyVal)
    (c1 c2 : list Byte.byte) :
  num_channels self = 1 ->
  post_answer remote self text = Ok response ->
  Http.status_code response = 200 ->
  has_id response id ->
  stream_answer remote self id
  = Ok {| Http.chunks := [c1; c2]; Http.broken := None |} ->
  List.length c1 = 320%nat ->
  List.length c2 = 4%nat ->
  let units := units_of (fst (run remote rnd self text)) in
  map (fun u => Rtc.samples_per_channel (Rtc.frame u)) units = [160; 2]
  /\ map (fun u => Rtc.samples_per_channel (Rtc.frame u)) units
     = [Z.of_nat (List.length c1) / (2 * 1); Z.of_nat (List.length c2) / (2 * 1)]
  /\ map Rtc.request_id units = [id; id].
Proof.
  intros Hchan Hpost Hstatus Hid Hstream Hc1 Hc2 units. subst units.
  assert (Hnz : num_channels self <> 0) by lia.
  rewrite (run_success _ _ _ _ response id _ Hnz Hpost Hstatus Hid Hstream).
  cbn. rewrite Hchan, Hc1, Hc2. repeat split; reflexivity.
Qed.

Lemma chunk_slicing_witness :
  let remote :=
    Sample.answering
      {| Http.status_code := 200; Http.json := Sample.body_with_id |}
      {| Http.chunks := [Sample.chunk_of 320; Sample.chunk_of 4];
         Http.broken := None |} in
  let units := units_of (fst (run remote 7 Sample.tts "Hello world")) in
  map (fun u => Rtc.samples_per_channel (Rtc.frame u)) units = [160; 2]
  /\ map (fun u => Rtc.samples_per_channel (Rtc.frame u)) units
     = [Z.of_nat (List.length (Sample.chunk_of 320)) / (2 * 1);
        Z.of_nat (List.length (Sample.chunk_of 4)) / (2 * 1)]
  /\ map Rtc.request_id units = [PyStr "abc123"; PyStr "abc123"].
Proof.
  intros remote.
  apply (chunk_slicing remote 7 Sample.tts "Hello world"
           {| Http.status_code := 200; Http.json := Sample.body_with_id |}
           (PyStr "abc123") (Sample.chunk_of 320) (Sample.chunk_of 4)).
  - reflexivity.
  - reflexivity.
  - reflexivity.
  - eexists. split; reflexivity.
  - reflexivity.
  - reflexivity.
  - reflexivity.
Defined.

(** C5 as first stated (80 and 2 samples for 320 and 4 bytes) fails: a
    service that returns an identifier and streams a chunk of 320 bytes and a
    chunk of 4 bytes gets 160 and 2 samples per channel. *)
Lemma chunk_slicing_is_not_80 :
  let remote :=
    Sample.answering
      {| Http.status_code := 200; Http.json := Sample.body_with_id |}
      {| Http.chunks := [Sample.chunk_of 320; Sample.chunk_of 4];
         Http.broken := None |} in
  let units := units_of (fst (run remote 7 Sample.tts "Hello world")) in
  map (fun u => Z.of_nat (List.length (Rtc.data (Rtc.frame u)))) units = [320; 4]
  /\ map (fun u => Rtc.samples_per_channel (Rtc.frame u)) units = [160; 2]
  /\ map (fun u => Rtc.samples_per_channel (Rtc.frame u)) units <> [80; 2].
Proof.
  intros remote units.
  assert (H : map (fun u => Rtc.samples_per_channel (Rtc.frame u)) units = [160; 2])
    by (vm_compute; reflexivity).
  split; [vm_compute; reflexivity|]. split; [exact H|].
  rewrite H. discriminate.
Qed.

(** C6, as amended. When the POST is answered with status 200 and a JSON
    object holding the identifier, the generator opens one streaming GET for
    that identifier and yields exactly one unit per chunk received, each
    carrying the identifier, in the order of arrival; when the service closes
    the stream the sequence ends. *)
Theorem success_streams_every_chunk (remote : Http.Remote) (rnd : N)
    (self : PlayHTTTS) (text : string) (response : Http.Response)
    (id : PyVal) (s : Http.Stream) :
  configured self ->
  post_answer remote self text = Ok response ->
  Http.status_code response = 200 ->
  has_id response id ->
  stream_answer remote self id = Ok s ->
  Http.broken s = None ->
  let units := units_of (fst (run remote rnd self text)) in
  streams_every_chunk remote rnd self text id s
  /\ map Rtc.request_id units = map (fun _ => id) (Http.chunks s)
  /\ map (fun u => Rtc.data (Rtc.frame u)) units = Http.chunks s.
Proof.
  intros [_ Hchan] Hpost Hstatus Hid Hstream Hclosed units. subst units.
  assert (Hnz : num_channels self <> 0) by lia.
  unfold streams_every_chunk.
  rewrite (run_success _ _ _ _ response id s Hnz Hpost Hstatus Hid Hstream).
  rewrite Hclosed, app_nil_r. split; [reflexivity|].
  cbn [fst units_of the_post the_get].
  rewrite units_of_only_yields, !map_map. cbn.
  split; [reflexivity | apply map_id].
Qed.

Lemma success_streams_every_chunk_witness :
  let response := {| Http.status_code := 200; Http.json := Sample.body_with_id |} in
  let s := {| Http.chunks := [Sample.chunk_of 6; Sample.chunk_of 2; Sample.chunk_of 4];
              Http.broken := None |} in
  let remote := Sample.answering response s in
  let units := units_of (fst (run remote 7 Sample.tts "Hello world")) in
  streams_every_chunk remote 7 Sample.tts "Hello world" (PyStr "abc123") s
  /\ map Rtc.request_id units = map (fun _ => PyStr "abc123") (Http.chunks s)
  /\ map (fun u => Rtc.data (Rtc.frame u)) units = Http.chunks s.
Proof.
  intros response s remote.
  apply (success_streams_every_chunk remote 7 Sample.tts "Hello world" response).
  - split; reflexivity.
  - reflexivity.
  - reflexivity.
  - eexists. split; reflexivity.
  - reflexivity.
  - reflexivity.
Defined.

(** C6 as first stated (any status in 200..299) fails: an answer with status
    201 that holds the identifier is treated as a failure. No GET is sent,
    and the only unit is the silence sentinel instead of the streamed
    chunk. *)
Lemma status_201_is_not_streamed :
  let response := {| Http.status_code := 201; Http.json := Sample.body_with_id |} in
  let s := {| Http.chunks := [Sample.chunk_of 4]; Http.broken := None |} in
  let remote := Sample.answering response s in
  is_2xx (Http.status_code response) = true
  /\ has_id response (PyStr "abc123")
  /\ stream_answer remote Sample.tts (PyStr "abc123") = Ok s
  /\ run remote 7 Sample.tts "Hello world"
     = ([the_post Sample.tts "Hello world"; Yield (error_audio Sample.tts 7)], Ok tt)
  /\ ~ streams_every_chunk remote 7 Sample.tts "Hello world" (PyStr "abc123") s.
Proof.
  intros response s remote.
  assert (Hrun : run remote 7 Sample.tts "Hello world"
                 = ([the_post Sample.tts "Hello world";
                     Yield (error_audio Sample.tts 7)], Ok tt)).
  { apply (run_not_200 _ _ _ _ response); [reflexivity | discriminate]. }
  split; [reflexivity|]. split; [eexists; split; reflexivity|].
  split; [reflexivity|]. split; [exact Hrun|].
  unfold streams_every_chunk. rewrite Hrun. discriminate.
Qed.

(** C10. On the success path every chunk received is the raw data of its
    unit, byte for byte, and the unit's sample count is the floor of half the
    chunk's length; for a chunk of odd length the data is therefore one byte
    longer than 2 * samples_per_channel * channel_count. This holds for
    the chunks received before a break of the stream as well: [tail] is then
    the closing sentinel. *)
Theorem chunk_bytes_verbatim (remote : Http.Remote) (rnd : N)
    (self : PlayHTTTS) (text : string) (response : Http.Response)
    (id : PyVal) (s : Http.Stream) :
  num_channels self = 1 ->
  post_answer remote self text = Ok response ->
  Http.status_code response = 200 ->
  has_id response id ->
  stream_answer remote self id = Ok s ->
  exists units tail,
    units_of (fst (run remote rnd self text)) = (units ++ tail)%list
    /\ (Http.broken s = None -> tail = [])
    /\ Forall2
         (fun chunk u =>
            let len := Z.of_nat (List.length chunk) in
            Rtc.data (Rtc.frame u) = chunk
            /\ Rtc.samples_per_channel (Rtc.frame u) = len / 2
            /\ (Z.odd len = true ->
                Z.of_nat (List.length (Rtc.data (Rtc.frame u)))
                = 2 * Rtc.samples_per_channel (Rtc.frame u)
                  * Rtc.num_channels (Rtc.frame u) + 1))
         (Http.chunks s) units.
Proof.
  intros Hchan Hpost Hstatus Hid Hstream.
  assert (Hnz : num_channels self <> 0) by lia.
  rewrite (run_success _ _ _ _ response id s Hnz Hpost Hstatus Hid Hstream).
  exists (map (audio_of self id) (Http.chunks s)).
  exists (units_of match Http.broken s with
                   | None => []
                   | Some _ => [Yield (error_audio self rnd)]
                   end).
  split; [|split].
  - cbn [fst app units_of]. apply units_of_yields.
  - intros Hclosed. rewrite Hclosed. reflexivity.
  - induction (Http.chunks s) as [|chunk chunks IH]; cbn [map]; constructor.
    + unfold audio_of.
      cbn [Rtc.frame Rtc.data Rtc.samples_per_channel Rtc.num_channels].
      rewrite Hchan. change (2 * 1) with 2.
      split; [reflexivity|]. split; [reflexivity|].
      intros Hodd. apply odd_length_split in Hodd. lia.
    + exact IH.
Qed.

Lemma chunk_bytes_verbatim_witness :
  let response := {| Http.status_code := 200; Http.json := Sample.body_with_id |} in
  let s := {| Http.chunks := [Sample.chunk_of 5; Sample.chunk_of 4];
              Http.broken := None |} in
  exists units tail,
    units_of (fst (run (Sample.answering response s) 7 Sample.tts "Hello world"))
    = (units ++ tail)%list
    /\ (Http.broken s = None -> tail = [])
    /\ Forall2
         (fun chunk u =>
            let len := Z.of_nat (List.length chunk) in
            Rtc.data (Rtc.frame u) = chunk
            /\ Rtc.samples_per_channel (Rtc.frame u) = len / 2
            /\ (Z.odd len = true ->
                Z.of_nat (List.length (Rtc.data (Rtc.frame u)))
                = 2 * Rtc.samples_per_channel (Rtc.frame u)
                  * Rtc.num_channels (Rtc.frame u) + 1))
         (Http.chunks s) units.
Proof.
  intros response s.
  apply (chunk_bytes_verbatim (Sample.answering response s) 7 Sample.tts
           "Hello world" response (PyStr "abc123") s).
  - reflexivity.
  - reflexivity.
  - reflexivity.
  - eexists. split; reflexivity.
  - reflexivity.
Defined.

(** ** [flush] *)

Lemma truthy_nonempty {A : Type} (l : list A) : l <> [] -> truthy l = true.
Proof. destruct l; [congruence | reflexivity]. Qed.

(** With something in the buffer, [flush] awaits an asynchronous generator:
    a [TypeError] before any of [synthesize_stream] has run, and before the
    assignment that would clear the buffer. *)
Lemma flush_nonempty (remote : Http.Remote) (rnd : N) (self : PlayHTTTS) :
  _input_buffer self <> [] ->
  flush remote rnd self
  = (self,
     ([], Raise (TypeError
                   "object async_generator can't be used in 'await' expression"))).
Proof.
  intros Hbuf. unfold flush. rewrite (truthy_nonempty _ Hbuf). reflexivity.
Qed.

Lemma flush_empty (remote : Http.Remote) (rnd : N) (self : PlayHTTTS) :
  _input_buffer self = [] ->
  flush remote rnd self = (self, ([], Ok tt)).
Proof. intros Hbuf. unfold flush. rewrite Hbuf. reflexivity. Qed.

(** C9. With an empty pending buffer, [flush] makes no network call,
    returns normally, and leaves the whole adapter (buffer, input-done flag,
    configuration) as it was. *)
Theorem empty_flush_is_noop (remote : Http.Remote) (rnd : N) (self : PlayHTTTS) :
  _input_buffer self = [] ->
  let (self', ran) := flush remote rnd self in
  self' = self /\ calls_of (fst ran) = [] /\ snd ran = Ok tt.
Proof.
  intros Hbuf. rewrite (flush_empty _ _ _ Hbuf). repeat split.
Qed.

Lemma empty_flush_is_noop_witness :
  let (self', ran) :=
    flush (Sample.answering
             {| Http.status_code := 200; Http.json := Sample.body_with_id |}
             Sample.no_stream)
          7 (end_input Sample.tts) in
  self' = end_input Sample.tts /\ calls_of (fst ran) = [] /\ snd ran = Ok tt.
Proof.
  apply (empty_flush_is_noop
           (Sample.answering
              {| Http.status_code := 200; Http.json := Sample.body_with_id |}
              Sample.no_stream)
           7 (end_input Sample.tts)).
  reflexivity.
Defined.

(** C2, at the failing input. After [push_text("Hello")], [flush] raises a
    [TypeError] to its caller, whatever the service would have done. *)
Theorem flush_raises_type_error (remote : Http.Remote) (rnd : N) :
  snd (snd (flush remote rnd (push_text Sample.tts "Hello")))
  = Raise (TypeError
             "object async_generator can't be used in 'await' expression").
Proof. rewrite flush_nonempty; [reflexivity | discriminate]. Qed.

(** C3, at the failing input. After [push_text("Hello")] and
    [push_text("world")], the paragraph to send is ["Hello world"], but
    [flush] sends no request at all. *)
Theorem flush_sends_no_request (remote : Http.Remote) (rnd : N) :
  let self := push_text (push_text Sample.tts "Hello") "world" in
  join " " (_input_buffer self) = "Hello world"
  /\ fst (snd (flush remote rnd self)) = [].
Proof.
  intros self. split; [reflexivity|].
  subst self. rewrite flush_nonempty; [reflexivity | discriminate].
Qed.

(** C4, at the failing input. After [push_text("Hello")], [flush] leaves the
    adapter untouched: the buffer still holds the fragment. *)
Theorem flush_keeps_buffer (remote : Http.Remote) (rnd : N) :
  let self := push_text Sample.tts "Hello" in
  fst (flush remote rnd self) = self
  /\ _input_buffer (fst (flush remote rnd self)) = ["Hello"].
Proof.
  intros self. subst self. rewrite flush_nonempty; [|discriminate].
  split; reflexivity.
Qed.

(** ** The iteration protocol *)

(** The path that does dispatch the buffer: with something in it, the loop
    joins the fragments and iterates [synthesize_stream] on the result. *)
Lemma anext_dispatches (fuel : nat) (w : World) (calls : list Event)
    (g : AIter) (self : PlayHTTTS) :
  pc g = AtWhile ->
  _input_buffer self <> [] ->
  anext (S fuel) w calls g self
  = anext fuel w calls
      {| pc := InFor (run (remote_at w (synth_calls g)) (urandom_at w (synth_calls g))
                        self (join " " (_input_buffer self)));
         synth_calls := S (synth_calls g) |}
      self.
Proof.
  intros Hpc Hbuf. cbn [anext]. rewrite Hpc, (truthy_nonempty _ Hbuf).
  rewrite orb_true_r. reflexivity.
Qed.

(** Every run of [synthesize_stream] begins with its one POST, whose
    content is the text given. *)
Lemma run_begins_with_post (remote : Http.Remote) (rnd : N) (self : PlayHTTTS)
    (text : string) :
  exists rest,
    fst (run remote rnd self text) = the_post self text :: rest
    /\ Http.lookup "content" (payload self text) = Some text.
Proof.
  rewrite run_unfold.
  unfold synthesize_try, client_post, bind. fold (post_answer remote self text).
  destruct (post_answer remote self text) as [response|e].
  - match goal with
    | |- context [let (t', r) := ?body in _] => destruct body as [t' [[]|e]]
    end; cbn; eauto.
  - cbn. eauto.
Qed.

(** Through [__aiter__], pushing ["Hello"] and ["world"] does send the POST
    with content ["Hello world"]: here against a service that refuses it. *)
Example aiter_sends_hello_world :
  let self := push_text (push_text Sample.tts "Hello") "world" in
  let remote :=
    Sample.answering
      {| Http.status_code := 503; Http.json := Raise JSONDecodeError |}
      Sample.no_stream in
  anext 3 (Sample.world remote) [] __aiter__ self
  = Yielded [the_post self "Hello world"] (error_audio self 0)
      {| pc := InFor ([], Ok tt); synth_calls := 1 |} self.
Proof. reflexivity. Qed.

(** From the loop head, with the input ended and nothing buffered, the
    generator stops at once. *)
Lemma anext_done (fuel : nat) (w : World) (calls : list Event) (g : AIter)
    (self : PlayHTTTS) :
  (forall inner, pc g <> InFor inner) ->
  _is_input_done self = true ->
  _input_buffer self = [] ->
  anext (S fuel) w calls g self = StopAsyncIteration calls self.
Proof.
  intros Hpc Hdone Hbuf. cbn [anext].
  destruct (pc g) as [|inner|] eqn:Epc.
  - rewrite Hdone, Hbuf. reflexivity.
  - now elim (Hpc inner).
  - reflexivity.
Qed.

(** From the loop head, with nothing buffered and the input not ended, no
    number of steps reaches a [yield], a network call or the end: each pass
    tests the condition again in the same state. *)
Lemma anext_idle (w : World) (calls : list Event) (g : AIter)
    (self : PlayHTTTS) :
  pc g = AtWhile ->
  idle self ->
  forall fuel, anext fuel w calls g self = OutOfFuel.
Proof.
  intros Hpc [Hbuf Hdone] fuel. induction fuel as [|fuel IH]; [reflexivity|].
  cbn [anext]. rewrite Hpc, Hdone, Hbuf. cbn [negb orb truthy]. exact IH.
Qed.

(** A generator suspended inside its [async for] has a non-empty buffer,
    and nothing the consumer can call between two units empties it. *)
Lemma apply_op_keeps_text (self : PlayHTTTS) (op : Op) :
  _input_buffer self <> [] -> _input_buffer (apply_op self op) <> [].
Proof.
  intros Hbuf. destruct op as [text| | |remote rnd]; cbn; try exact Hbuf.
  - destruct (_input_buffer self); [congruence | discriminate].
  - rewrite flush_nonempty; [exact Hbuf | exact Hbuf].
Qed.

Lemma anext_keeps_text (w : World) (fuel : nat) :
  forall calls g self calls' u g' self',
    in_for_has_text g self ->
    anext fuel w calls g self = Yielded calls' u g' self' ->
    in_for_has_text g' self'.
Proof.
  induction fuel as [|fuel IH]; intros calls g self calls' u g' self' Hinv Hnext;
    [discriminate|].
  cbn [anext] in Hnext. destruct (pc g) as [|[t ending]|] eqn:Epc.
  - destruct (negb (_is_input_done self) || truthy (_input_buffer self));
      [|discriminate].
    destruct (truthy (_input_buffer self)) eqn:Ebuf.
    + apply IH in Hnext; [exact Hnext|].
      intros inner _ Hnil. rewrite Hnil in Ebuf. discriminate.
    + apply IH in Hnext; [exact Hnext | exact Hinv].
  - destruct t as [|ev rest].
    + destruct ending as [[]|e]; [|discriminate].
      apply IH in Hnext; [exact Hnext|]. intros inner Hpc. discriminate.
    + destruct ev as [url p h|url id h|chunk].
      * apply IH in Hnext; [exact Hnext|].
        intros inner _. exact (Hinv _ Epc).
      * apply IH in Hnext; [exact Hnext|].
        intros inner _. exact (Hinv _ Epc).
      * injection Hnext as _ _ Hg Hself. subst g' self'.
        intros inner _. exact (Hinv _ Epc).
  - discriminate.
Qed.

(** The invariant holds of a fresh generator. *)
Lemma aiter_start_has_text (self : PlayHTTTS) : in_for_has_text __aiter__ self.
Proof. intros inner Hpc. discriminate Hpc. Qed.

(** The audio format survives every call of the consumer and every step of
    the generator. *)
Lemma apply_op_configured (self : PlayHTTTS) (op : Op) :
  configured self -> configured (apply_op self op).
Proof.
  intros Hconf. destruct op as [text| | |remote rnd]; try exact Hconf.
  cbn [apply_op]. unfold flush.
  destruct (truthy (_input_buffer self)); [|exact Hconf].
  destruct (await _) as [t [[]|e]]; exact Hconf.
Qed.

Lemma anext_configured (w : World) (fuel : nat) :
  forall calls g self,
    configured self ->
    match anext fuel w calls g self with
    | Yielded _ _ _ self' | StopAsyncIteration _ self' | Raised _ _ self' =>
        configured self'
    | OutOfFuel => True
    end.
Proof.
  induction fuel as [|fuel IH]; intros calls g self Hconf; [exact I|].
  cbn [anext]. destruct (pc g) as [|[t ending]|].
  - destruct (negb (_is_input_done self) || truthy (_input_buffer self));
      [|exact Hconf].
    destruct (truthy (_input_buffer self)); now apply IH.
  - destruct t as [|[url p h|url id h|chunk] rest].
    + destruct ending as [[]|e]; [now apply IH | exact Hconf].
    + now apply IH.
    + now apply IH.
    + exact Hconf.
  - exact Hconf.
Qed.

(** C7. In every state of the adapter and its generator in which
    [end_input()] has been called and the pending buffer is empty, the next
    request ends the sequence: no unit, no network call, the loop exits. One
    step of the generator is enough. (The invariant [in_for_has_text] holds
    of every state the adapter's methods can lead to; with an empty buffer it
    places the generator at its loop test or past its end.) *)
Theorem aiter_terminates (fuel : nat) (w : World) (g : AIter)
    (self : PlayHTTTS) :
  in_for_has_text g self ->
  _is_input_done self = true ->
  _input_buffer self = [] ->
  anext (S fuel) w [] g self = StopAsyncIteration [] self.
Proof.
  intros Hinv Hdone Hbuf. apply anext_done; [|exact Hdone|exact Hbuf].
  intros inner Hpc. exact (Hinv inner Hpc Hbuf).
Qed.

Lemma aiter_terminates_witness :
  anext 1 (Sample.world (Sample.answering
                           {| Http.status_code := 200;
                              Http.json := Sample.body_with_id |}
                           Sample.no_stream))
        [] __aiter__ (end_input Sample.tts)
  = StopAsyncIteration [] (end_input Sample.tts).
Proof.
  apply (aiter_terminates 0 _ __aiter__ (end_input Sample.tts)).
  - intros inner Hpc. discriminate Hpc.
  - reflexivity.
  - reflexivity.
Defined.

(** A whole conversation turn: one fragment pushed, the input ended, a
    service that refuses the request. The first request yields the sentinel,
    the second one clears the buffer and ends the sequence. *)
Example aiter_drains_then_stops :
  let self := end_input (push_text Sample.tts "Hi") in
  let w :=
    Sample.world
      (Sample.answering
         {| Http.status_code := 503; Http.json := Raise JSONDecodeError |}
         Sample.no_stream) in
  let g1 := {| pc := InFor ([], Ok tt); synth_calls := 1 |} in
  anext 3 w [] __aiter__ self
  = Yielded [the_post self "Hi"] (error_audio self 0) g1 self
  /\ anext 2 w [] g1 self = StopAsyncIteration [] (set_input_buffer self []).
Proof. split; reflexivity. Qed.

(** C8, at the failing input. A fresh adapter (nothing buffered, input not
    ended) iterated from the start: however many steps the generator is
    given, it reaches no suspension point; every pass through the loop
    re-tests the condition without handing control back. *)
Theorem aiter_idle_busy_spins (w : World) (fuel : nat) :
  anext fuel w [] __aiter__ Sample.tts = OutOfFuel.
Proof. apply anext_idle; [reflexivity | split; reflexivity]. Qed.

(** ** More on one call of [synthesize_stream] *)

Section SynthesisCases.

Variable remote : Http.Remote.
Variable rnd : N.
Variable self : PlayHTTTS.
Variable text : string.

Ltac open_try :=
  rewrite run_unfold;
  unfold synthesize_try, client_post, client_stream, bind, lift;
  fold (post_answer remote self text).

Lemma run_contains_raises (response : Http.Response) (response_data : PyVal)
    (e : PyExc) :
  post_answer remote self text = Ok response ->
  Http.status_code response = 200 ->
  Http.json response = Ok response_data ->
  contains "transcriptionId" response_data = Raise e ->
  run remote rnd self text
  = ([the_post self text; Yield (error_audio self rnd)], Ok tt).
Proof.
  intros Hpost Hstatus Hjson Hin. open_try.
  rewrite Hpost, Hstatus, Hjson, Hin. reflexivity.
Qed.

Lemma run_getitem_raises (response : Http.Response) (response_data : PyVal)
    (e : PyExc) :
  post_answer remote self text = Ok response ->
  Http.status_code response = 200 ->
  Http.json response = Ok response_data ->
  contains "transcriptionId" response_data = Ok true ->
  getitem response_data "transcriptionId" = Raise e ->
  run remote rnd self text
  = ([the_post self text; Yield (error_audio self rnd)], Ok tt).
Proof.
  intros Hpost Hstatus Hjson Hin Hget. open_try.
  rewrite Hpost, Hstatus, Hjson, Hin, Hget. reflexivity.
Qed.

(** Only a JSON object can pass both the membership test and the
    subscription. *)
Lemma getitem_ok_has_id (response : Http.Response) (response_data id : PyVal) :
  Http.json response = Ok response_data ->
  getitem response_data "transcriptionId" = Ok id ->
  has_id response id.
Proof.
  intros Hjson Hget. destruct response_data as [| | | | | |d]; try discriminate Hget.
  exists d. split; [exact Hjson|]. cbn [getitem] in Hget.
  destruct (dict_get "transcriptionId" d); [congruence | discriminate].
Qed.

(** The three shapes a run can have. *)
Lemma run_shape :
  num_channels self <> 0 ->
  run remote rnd self text
  = ([the_post self text; Yield (error_audio self rnd)], Ok tt)
  \/ (exists id,
        run remote rnd self text
        = ([the_post self text; the_get self id; Yield (error_audio self rnd)],
           Ok tt))
  \/ (exists id s,
        run remote rnd self text
        = ((the_post self text :: the_get self id
              :: map (fun chunk => Yield (audio_of self id chunk)) (Http.chunks s))
           ++ match Http.broken s with
              | None => []
              | Some _ => [Yield (error_audio self rnd)]
              end,
           Ok tt)%list).
Proof.
  intros Hchan.
  destruct (post_answer remote self text) as [response|e] eqn:Hpost;
    [|left; exact (run_post_raises _ _ _ _ e Hpost)].
  destruct (Z.eq_dec (Http.status_code response) 200) as [Hstatus|Hstatus];
    [|left; exact (run_not_200 _ _ _ _ response Hpost Hstatus)].
  destruct (Http.json response) as [response_data|e] eqn:Hjson;
    [|left; exact (run_json_raises _ _ _ _ response e Hpost Hstatus Hjson)].
  destruct (contains "transcriptionId" response_data) as [[|]|e] eqn:Hin.
  - destruct (getitem response_data "transcriptionId") as [id|e] eqn:Hget.
    + pose proof (getitem_ok_has_id _ _ _ Hjson Hget) as Hid.
      destruct (stream_answer remote self id) as [s|e] eqn:Hstream.
      * right. right. exists id, s.
        exact (run_success _ _ _ _ response id s Hchan Hpost Hstatus Hid Hstream).
      * right. left. exists id.
        exact (run_stream_raises _ _ _ _ response id e Hpost Hstatus Hid Hstream).
    + left. exact (run_getitem_raises response _ e Hpost Hstatus Hjson Hin Hget).
  - left. exact (run_no_id _ _ _ _ response _ Hpost Hstatus Hjson Hin).
  - left. exact (run_contains_raises response _ e Hpost Hstatus Hjson Hin).
Qed.

End SynthesisCases.

Lemma calls_of_yields (f : list Byte.byte -> Rtc.SynthesizedAudio)
    (chunks : list (list Byte.byte)) (rest : list Event) :
  calls_of (map (fun chunk => Yield (f chunk)) chunks ++ rest)%list
  = calls_of rest.
Proof.
  induction chunks as [|chunk chunks IH]; [reflexivity | exact IH].
Qed.

(** X1. Whatever the service does, one call of [synthesize_stream] sends
    exactly one POST, first, and after it at most one streaming GET: there
    is no retry and no second request of either kind. *)
Theorem run_sends_one_post_at_most_one_get (remote : Http.Remote) (rnd : N)
    (self : PlayHTTTS) (text : string) :
  configured self ->
  calls_of (fst (run remote rnd self text)) = [the_post self text]
  \/ exists id,
       calls_of (fst (run remote rnd self text))
       = [the_post self text; the_get self id].
Proof.
  intros [_ Hchan]. assert (Hnz : num_channels self <> 0) by lia.
  destruct (run_shape remote rnd self text Hnz) as [H | [[id H] | (id & s & H)]];
    rewrite H.
  - left. reflexivity.
  - right. exists id. reflexivity.
  - right. exists id. cbn [fst]. unfold the_post, the_get. cbn [calls_of filter app].
    f_equal. f_equal. rewrite (calls_of_yields (audio_of self id)).
    destruct (Http.broken s); reflexivity.
Qed.

Lemma run_sends_one_post_at_most_one_get_witness :
  let remote :=
    Sample.answering
      {| Http.status_code := 200; Http.json := Sample.body_with_id |}
      {| Http.chunks := [Sample.chunk_of 4]; Http.broken := None |} in
  calls_of (fst (run remote 7 Sample.tts "Hi")) = [the_post Sample.tts "Hi"]
  \/ exists id,
       calls_of (fst (run remote 7 Sample.tts "Hi"))
       = [the_post Sample.tts "Hi"; the_get Sample.tts id].
Proof.
  intros remote.
  apply (run_sends_one_post_at_most_one_get remote 7 Sample.tts "Hi").
  split; reflexivity.
Defined.

(** X2. An exception raised by the POST, by [response.json()] on a 200
    answer, or by the opening of the stream never reaches the consumer: the
    generator yields exactly one unit, the silence sentinel, and ends
    normally. *)
Theorem exception_yields_one_sentinel (remote : Http.Remote) (rnd : N)
    (self : PlayHTTTS) (text : string) :
  configured self ->
  (exists e, post_answer remote self text = Raise e)
  \/ (exists response e,
        post_answer remote self text = Ok response
        /\ Http.status_code response = 200
        /\ Http.json response = Raise e)
  \/ (exists response id e,
        post_answer remote self text = Ok response
        /\ Http.status_code response = 200
        /\ has_id response id
        /\ stream_answer remote self id = Raise e) ->
  snd (run remote rnd self text) = Ok tt
  /\ exists u, units_of (fst (run remote rnd self text)) = [u]
               /\ is_silence_sentinel u.
Proof.
  intros Hconf Hfail. split; [apply run_returns|].
  exists (error_audio self rnd). split; [|now apply error_audio_is_sentinel].
  destruct Hfail as [[e Hpost] | [(response & e & Hpost & Hstatus & Hjson)
                                 | (response & id & e & Hpost & Hstatus & Hid & Hstream)]].
  - rewrite (run_post_raises _ _ _ _ e Hpost). reflexivity.
  - rewrite (run_json_raises _ _ _ _ response e Hpost Hstatus Hjson). reflexivity.
  - rewrite (run_stream_raises _ _ _ _ response id e Hpost Hstatus Hid Hstream).
    reflexivity.
Qed.

Lemma exception_yields_one_sentinel_witness :
  let remote :=
    {| Http.post := fun _ _ _ => Raise (TransportError "connection refused");
       Http.stream := fun _ _ _ => Ok Sample.no_stream |} in
  snd (run remote 7 Sample.tts "Hi") = Ok tt
  /\ exists u, units_of (fst (run remote 7 Sample.tts "Hi")) = [u]
               /\ is_silence_sentinel u.
Proof.
  intros remote.
  apply (exception_yields_one_sentinel remote 7 Sample.tts "Hi").
  - split; reflexivity.
  - left. eexists. reflexivity.
Defined.

(** X3. When the stream breaks after some chunks, the units of the chunks
    already received have been yielded, each with the service's identifier,
    and one silence sentinel closes the sequence, which ends normally. *)
Theorem broken_stream_ends_with_sentinel (remote : Http.Remote) (rnd : N)
    (self : PlayHTTTS) (text : string) (response : Http.Response)
    (id : PyVal) (s : Http.Stream) (e : PyExc) :
  configured self ->
  post_answer remote self text = Ok response ->
  Http.status_code response = 200 ->
  has_id response id ->
  stream_answer remote self id = Ok s ->
  Http.broken s = Some e ->
  exists units last,
    units_of (fst (run remote rnd self text)) = (units ++ [last])%list
    /\ snd (run remote rnd self text) = Ok tt
    /\ map (fun u => Rtc.data (Rtc.frame u)) units = Http.chunks s
    /\ Forall (fun u => Rtc.request_id u = id) units
    /\ is_silence_sentinel last.
Proof.
  intros Hconf Hpost Hstatus Hid Hstream Hbroken.
  assert (Hnz : num_channels self <> 0) by (destruct Hconf; lia).
  exists (map (audio_of self id) (Http.chunks s)), (error_audio self rnd).
  rewrite (run_success _ _ _ _ response id s Hnz Hpost Hstatus Hid Hstream).
  rewrite Hbroken. cbn [fst snd app units_of the_post the_get].
  rewrite (units_of_yields (audio_of self id)).
  split; [reflexivity|]. split; [reflexivity|].
  split; [rewrite map_map; apply map_id|].
  split; [|now apply error_audio_is_sentinel].
  apply Forall_forall. intros u Hu. apply in_map_iff in Hu as (chunk & <- & _).
  reflexivity.
Qed.

Lemma broken_stream_ends_with_sentinel_witness :
  let response := {| Http.status_code := 200; Http.json := Sample.body_with_id |} in
  let s := {| Http.chunks := [Sample.chunk_of 6; Sample.chunk_of 2];
              Http.broken := Some (TransportError "reset") |} in
  let remote := Sample.answering response s in
  exists units last,
    units_of (fst (run remote 7 Sample.tts "Hi")) = (units ++ [last])%list
    /\ snd (run remote 7 Sample.tts "Hi") = Ok tt
    /\ map (fun u => Rtc.data (Rtc.frame u)) units = Http.chunks s
    /\ Forall (fun u => Rtc.request_id u = PyStr "abc123") units
    /\ is_silence_sentinel last.
Proof.
  intros response s remote.
  apply (broken_stream_ends_with_sentinel remote 7 Sample.tts "Hi" response
           (PyStr "abc123") s (TransportError "reset")).
  - split; reflexivity.
  - reflexivity.
  - reflexivity.
  - eexists. split; reflexivity.
  - reflexivity.
  - reflexivity.
Defined.

(** X4. A stream that opens and closes without delivering a chunk gives an
    empty sequence: no unit at all, not even a sentinel. *)
Theorem empty_stream_yields_nothing (remote : Http.Remote) (rnd : N)
    (self : PlayHTTTS) (text : string) (response : Http.Response)
    (id : PyVal) (s : Http.Stream) :
  post_answer remote self text = Ok response ->
  Http.status_code response = 200 ->
  has_id response id ->
  stream_answer remote self id = Ok s ->
  Http.chunks s = [] ->
  Http.broken s = None ->
  run remote rnd self text = ([the_post self text; the_get self id], Ok tt)
  /\ units_of (fst (run remote rnd self text)) = [].
Proof.
  intros Hpost Hstatus (d & Hjson & Hget) Hstream Hchunks Hclosed.
  assert (Hrun : run remote rnd self text
                 = ([the_post self text; the_get self id], Ok tt)).
  { rewrite run_unfold.
    unfold synthesize_try, client_post, client_stream, bind, lift.
    fold (post_answer remote self text).
    rewrite Hpost, Hstatus, Hjson. cbn [contains getitem].
    rewrite (dict_get_some _ _ _ Hget), Hget. cbn [negb].
    fold (stream_answer remote self id).
    rewrite Hstream, Hchunks, Hclosed. reflexivity. }
  rewrite Hrun. split; reflexivity.
Qed.

Lemma empty_stream_yields_nothing_witness :
  let response := {| Http.status_code := 200; Http.json := Sample.body_with_id |} in
  let remote := Sample.answering response Sample.no_stream in
  run remote 7 Sample.tts "Hi"
  = ([the_post Sample.tts "Hi"; the_get Sample.tts (PyStr "abc123")], Ok tt)
  /\ units_of (fst (run remote 7 Sample.tts "Hi")) = [].
Proof.
  intros response remote.
  apply (empty_stream_yields_nothing remote 7 Sample.tts "Hi" response
           (PyStr "abc123") Sample.no_stream).
  - reflexivity.
  - reflexivity.
  - eexists. split; reflexivity.
  - reflexivity.
  - reflexivity.
  - reflexivity.
Defined.

(** X5. A 200 answer whose JSON body is not an object (null, a boolean, a
    number, a string, an array), even one that mentions ["transcriptionId"],
    is a failure: no GET is sent and the one unit yielded is the error
    unit. *)
Theorem non_object_body_is_failure (remote : Http.Remote) (rnd : N)
    (self : PlayHTTTS) (text : string) (response : Http.Response)
    (response_data : PyVal) :
  post_answer remote self text = Ok response ->
  Http.status_code response = 200 ->
  Http.json response = Ok response_data ->
  (forall d, response_data <> PyDict d) ->
  run remote rnd self text
  = ([the_post self text; Yield (error_audio self rnd)], Ok tt).
Proof.
  intros Hpost Hstatus Hjson Hshape.
  destruct (contains "transcriptionId" response_data) as [[|]|e] eqn:Hin.
  - destruct (getitem response_data "transcriptionId") as [id|e] eqn:Hget.
    + destruct response_data as [| | | | | |d]; try discriminate Hget.
      now elim (Hshape d).
    + exact (run_getitem_raises _ _ _ _ response _ e Hpost Hstatus Hjson Hin Hget).
  - exact (run_no_id _ _ _ _ response _ Hpost Hstatus Hjson Hin).
  - exact (run_contains_raises _ _ _ _ response _ e Hpost Hstatus Hjson Hin).
Qed.

Lemma non_object_body_is_failure_witness :
  let response :=
    {| Http.status_code := 200;
       Http.json := Ok (PyStr "no transcriptionId for you") |} in
  run (Sample.answering response Sample.no_stream) 7 Sample.tts "Hi"
  = ([the_post Sample.tts "Hi"; Yield (error_audio Sample.tts 7)], Ok tt).
Proof.
  intros response.
  apply (non_object_body_is_failure (Sample.answering response Sample.no_stream)
           7 Sample.tts "Hi" response (PyStr "no transcriptionId for you")).
  - reflexivity.
  - reflexivity.
  - reflexivity.
  - intros d H. discriminate H.
Defined.

(** X6. Every unit a call yields, on any path, is a 44100 Hz mono frame
    whose sample count fits its data: the data holds 2 bytes for each sample
    and at most one byte more. *)
Theorem every_unit_fits_its_data (remote : Http.Remote) (rnd : N)
    (self : PlayHTTTS) (text : string) :
  configured self ->
  Forall
    (fun u =>
       let f := Rtc.frame u in
       let len := Z.of_nat (List.length (Rtc.data f)) in
       Rtc.sample_rate f = 44100
       /\ Rtc.num_channels f = 1
       /\ 0 <= Rtc.samples_per_channel f
       /\ 2 * Rtc.samples_per_channel f <= len <= 2 * Rtc.samples_per_channel f + 1)
    (units_of (fst (run remote rnd self text))).
Proof.
  intros [Hrate Hchan]. assert (Hnz : num_channels self <> 0) by lia.
  assert (Herr : let f := Rtc.frame (error_audio self rnd) in
                 let len := Z.of_nat (List.length (Rtc.data f)) in
                 Rtc.sample_rate f = 44100
                 /\ Rtc.num_channels f = 1
                 /\ 0 <= Rtc.samples_per_channel f
                 /\ 2 * Rtc.samples_per_channel f <= len
                    <= 2 * Rtc.samples_per_channel f + 1).
  { unfold error_audio.
    cbn [Rtc.frame Rtc.data Rtc.samples_per_channel Rtc.sample_rate
         Rtc.num_channels].
    rewrite repeat_length. repeat split; try assumption; lia. }
  destruct (run_shape remote rnd self text Hnz) as [H | [[id H] | (id & s & H)]];
    rewrite H; cbn [fst units_of the_post the_get app].
  - constructor; [exact Herr | constructor].
  - constructor; [exact Herr | constructor].
  - rewrite (units_of_yields (audio_of self id)). apply Forall_app. split.
    + apply Forall_forall. intros u Hu.
      apply in_map_iff in Hu as (chunk & <- & _).
      unfold audio_of.
      cbn [Rtc.frame Rtc.data Rtc.samples_per_channel Rtc.sample_rate
           Rtc.num_channels].
      rewrite Hchan. change (2 * 1) with 2.
      pose proof (Z.div_mod (Z.of_nat (List.length chunk)) 2 ltac:(lia)) as Hdm.
      pose proof (Z.mod_pos_bound (Z.of_nat (List.length chunk)) 2 ltac:(lia)) as Hm.
      repeat split; try assumption; lia.
    + destruct (Http.broken s); cbn [units_of]; [|constructor].
      constructor; [exact Herr | constructor].
Qed.

Lemma every_unit_fits_its_data_witness :
  Forall
    (fun u =>
       let f := Rtc.frame u in
       let len := Z.of_nat (List.length (Rtc.data f)) in
       Rtc.sample_rate f = 44100
       /\ Rtc.num_channels f = 1
       /\ 0 <= Rtc.samples_per_channel f
       /\ 2 * Rtc.samples_per_channel f <= len <= 2 * Rtc.samples_per_channel f + 1)
    (units_of
       (fst (run (Sample.answering
                    {| Http.status_code := 200; Http.json := Sample.body_with_id |}
                    {| Http.chunks := [Sample.chunk_of 5];
                       Http.broken := Some (TransportError "reset") |})
                 7 Sample.tts "Hi"))).
Proof.
  apply (every_unit_fits_its_data _ 7 Sample.tts "Hi").
  split; reflexivity.
Defined.

(** ** More on the iteration protocol *)

Lemma push_all_buffer (fragments : list string) :
  forall self,
    _input_buffer (fold_left push_text fragments self)
    = (_input_buffer self ++ fragments)%list.
Proof.
  induction fragments as [|fragment rest IH]; intros self; cbn [fold_left].
  - now rewrite app_nil_r.
  - rewrite IH. cbn [push_text set_input_buffer _input_buffer].
    now rewrite <- app_assoc.
Qed.

(** X7. Fragments pushed one after the other on an adapter with an empty
    buffer are sent as one request: the first two steps of a fresh generator
    make one network call, the POST whose content is the fragments joined by
    single spaces, in the order pushed, and leave the generator inside its
    [async for]. Empty fragments count: a buffer holding only [""] is
    dispatched too. *)
Theorem pushed_fragments_are_sent_joined (w : World) (self : PlayHTTTS)
    (fragments : list string) :
  _input_buffer self = [] ->
  fragments <> [] ->
  let self' := fold_left push_text fragments self in
  let text := join " " fragments in
  Http.lookup "content" (payload self' text) = Some text
  /\ exists rest,
       forall fuel,
         anext (S (S fuel)) w [] __aiter__ self'
         = anext fuel w [the_post self' text]
             {| pc := InFor rest; synth_calls := 1 |} self'.
Proof.
  intros Hempty Hfrag self' text. split; [reflexivity|].
  assert (Hbuf : _input_buffer self' = fragments).
  { subst self'. now rewrite push_all_buffer, Hempty. }
  destruct (run_begins_with_post (remote_at w 0) (urandom_at w 0) self' text)
    as (rest & Hrun & _).
  destruct (run (remote_at w 0) (urandom_at w 0) self' text) as [t ending] eqn:Erun.
  cbn [fst] in Hrun. subst t. exists (rest, ending). intros fuel.
  rewrite anext_dispatches; [|reflexivity | rewrite Hbuf; exact Hfrag].
  rewrite Hbuf. fold text. cbn [synth_calls __aiter__]. rewrite Erun.
  reflexivity.
Qed.

Lemma pushed_fragments_are_sent_joined_witness :
  let w := Sample.world (Sample.answering
                           {| Http.status_code := 200;
                              Http.json := Sample.body_with_id |}
                           Sample.no_stream) in
  let self' := fold_left push_text ["Hello"; ""; "world"] Sample.tts in
  let text := join " " ["Hello"; ""; "world"] in
  Http.lookup "content" (payload self' text) = Some text
  /\ exists rest,
       forall fuel,
         anext (S (S fuel)) w [] __aiter__ self'
         = anext fuel w [the_post self' text]
             {| pc := InFor rest; synth_calls := 1 |} self'.
Proof.
  intros w.
  apply (pushed_fragments_are_sent_joined w Sample.tts ["Hello"; ""; "world"]).
  - reflexivity.
  - discriminate.
Defined.

(** From the loop test with an empty buffer the generator never yields. *)
Lemma anext_empty_never_yields (w : World) (fuel : nat) :
  forall calls g self calls' u g' self',
    pc g = AtWhile ->
    _input_buffer self = [] ->
    anext fuel w calls g self <> Yielded calls' u g' self'.
Proof.
  induction fuel as [|fuel IH]; intros calls g self calls' u g' self' Hpc Hbuf;
    [discriminate|].
  cbn [anext]. rewrite Hpc, Hbuf. cbn [truthy]. rewrite orb_false_r.
  destruct (negb (_is_input_done self)); [now apply IH | discriminate].
Qed.

Lemma anext_in_first_call (w : World) (fuel : nat) :
  forall calls g self calls' u g' self',
    in_first_call g ->
    anext fuel w calls g self = Yielded calls' u g' self' ->
    in_first_call g' /\ self' = self.
Proof.
  induction fuel as [|fuel IH];
    intros calls g self calls' u g' self' [Hcount [inner Hpc]] Hnext;
    [discriminate|].
  cbn [anext] in Hnext. rewrite Hpc in Hnext. destruct inner as [t ending].
  destruct t as [|[url p h|url id h|chunk] rest].
  - destruct ending as [[]|e]; [|discriminate].
    now apply anext_empty_never_yields in Hnext.
  - apply IH in Hnext; [exact Hnext|]. split; [exact Hcount | eexists; reflexivity].
  - apply IH in Hnext; [exact Hnext|]. split; [exact Hcount | eexists; reflexivity].
  - injection Hnext as _ _ Hg Hself. subst g' self'.
    split; [|reflexivity]. split; [exact Hcount | eexists; reflexivity].
Qed.

(** X8. One generator, one synthesis. Whatever the consumer does to the
    adapter between two units, every state in which a generator started by
    [__aiter__] hands back a unit is inside its first call of
    [synthesize_stream]: a second call is never made, so text that arrives
    after the first dispatch is never synthesized by this generator. Handing
    back a unit leaves the adapter as it was. *)
Theorem generator_serves_one_call (w : World) (fuel : nat)
    (calls : list Event) (g : AIter) (self : PlayHTTTS)
    (calls' : list Event) (u : Rtc.SynthesizedAudio) (g' : AIter)
    (self' : PlayHTTTS) :
  g = __aiter__ \/ in_first_call g ->
  anext fuel w calls g self = Yielded calls' u g' self' ->
  in_first_call g' /\ self' = self.
Proof.
  intros [Hfresh | Hin] Hnext; [|exact (anext_in_first_call _ _ _ _ _ _ _ _ _ Hin Hnext)].
  subst g. revert Hnext. induction fuel as [|fuel IH]; intros Hnext; [discriminate|].
  cbn [anext pc __aiter__] in Hnext.
  destruct (negb (_is_input_done self) || truthy (_input_buffer self));
    [|discriminate].
  destruct (truthy (_input_buffer self)).
  - apply anext_in_first_call in Hnext; [exact Hnext|].
    split; [reflexivity | eexists; reflexivity].
  - exact (IH Hnext).
Qed.

Lemma generator_serves_one_call_witness :
  let self := push_text Sample.tts "Hi" in
  let w :=
    Sample.world
      (Sample.answering
         {| Http.status_code := 200; Http.json := Sample.body_with_id |}
         {| Http.chunks := [Sample.chunk_of 4; Sample.chunk_of 2];
            Http.broken := None |}) in
  let g' :=
    {| pc := InFor ([Yield (audio_of self (PyStr "abc123") (Sample.chunk_of 2))],
                    Ok tt);
       synth_calls := 1 |} in
  in_first_call g' /\ self = self.
Proof.
  intros self w g'.
  apply (generator_serves_one_call w 4 [] __aiter__ self
           [the_post self "Hi"; the_get self (PyStr "abc123")]
           (audio_of self (PyStr "abc123") (Sample.chunk_of 4)) g' self).
  - left. reflexivity.
  - reflexivity.
Defined.

Lemma next_yield_some (t : list Event) :
  forall calls u rest,
    next_yield t = (calls, Some (u, rest)) ->
    units_of t = u :: units_of rest
    /\ calls_of t = (calls ++ calls_of rest)%list
    /\ (List.length rest < List.length t)%nat.
Proof.
  induction t as [|ev t IH]; intros calls u rest Hnext; [discriminate|].
  cbn [next_yield] in Hnext.
  destruct ev as [url p h|url id h|chunk];
    try (destruct (next_yield t) as [cs found]; injection Hnext as <- ->;
         destruct (IH cs u rest eq_refl) as (Hu & Hc & Hlen);
         cbn [units_of List.length]; unfold calls_of in *; cbn [filter app];
         rewrite Hu, Hc; repeat split; lia).
  injection Hnext as <- <- <-. cbn. repeat split; lia.
Qed.

Lemma next_yield_none (t : list Event) :
  forall calls,
    next_yield t = (calls, None) -> units_of t = [] /\ calls_of t = calls.
Proof.
  induction t as [|ev t IH]; intros calls Hnext.
  - injection Hnext as <-. split; reflexivity.
  - cbn [next_yield] in Hnext.
    destruct ev as [url p h|url id h|chunk]; [| |discriminate];
      destruct (next_yield t) as [cs found]; injection Hnext as <- ->;
      destruct (IH cs eq_refl) as (Hu & Hc);
      cbn [units_of]; unfold calls_of in *; cbn [filter]; rewrite Hu, Hc;
      split; reflexivity.
Qed.

(** A request made inside the [async for] runs the inner generator up to
    its next [yield]; when there is none, what is left is the end of the
    loop. *)
Lemma anext_scan (w : World) (n : nat) (self : PlayHTTTS) (ending : Outcome unit)
    (t : list Event) :
  forall fuel calls,
    (List.length t < fuel)%nat ->
    anext fuel w calls {| pc := InFor (t, ending); synth_calls := n |} self
    = match next_yield t with
      | (cs, Some (u, rest)) =>
          Yielded (calls ++ cs) u
            {| pc := InFor (rest, ending); synth_calls := n |} self
      | (cs, None) =>
          anext (fuel - List.length t) w (calls ++ cs)
            {| pc := InFor ([], ending); synth_calls := n |} self
      end.
Proof.
  induction t as [|ev t IH]; intros fuel calls Hfuel.
  - cbn [next_yield List.length]. now rewrite Nat.sub_0_r, app_nil_r.
  - destruct fuel as [|fuel]; [cbn in Hfuel; lia|].
    cbn [List.length] in Hfuel.
    destruct ev as [url p h|url id h|chunk]; cbn [anext pc synth_calls next_yield].
    + rewrite IH by lia. destruct (next_yield t) as [cs [[u rest]|]];
        rewrite <- app_assoc; reflexivity.
    + rewrite IH by lia. destruct (next_yield t) as [cs [[u rest]|]];
        rewrite <- app_assoc; reflexivity.
    + now rewrite app_nil_r.
Qed.

Lemma anext_after_for (w : World) (n : nat) (self : PlayHTTTS)
    (fuel : nat) (calls : list Event) :
  anext (S (S fuel)) w calls {| pc := InFor ([], Ok tt); synth_calls := n |} self
  = if _is_input_done self
    then StopAsyncIteration calls (set_input_buffer self [])
    else OutOfFuel.
Proof.
  change (anext (S (S fuel)) w calls
            {| pc := InFor ([], Ok tt); synth_calls := n |} self)
    with (anext (S fuel) w calls {| pc := AtWhile; synth_calls := n |}
            (set_input_buffer self [])).
  destruct (_is_input_done self) eqn:Hdone.
  - apply (anext_done fuel w calls {| pc := AtWhile; synth_calls := n |});
      [discriminate | exact Hdone | reflexivity].
  - apply anext_idle; [reflexivity | split; [reflexivity | exact Hdone]].
Qed.

(** X9. Once the input is ended, a generator inside its [async for] delivers
    what is left of the running call of [synthesize_stream] and stops with
    the buffer cleared, whatever the buffer holds: text pushed while the
    units were being delivered is discarded without any request. *)
Theorem late_text_is_discarded (w : World) (n : nat) (t : list Event) :
  forall (rounds fuel : nat) (self : PlayHTTTS),
    _is_input_done self = true ->
    (List.length (units_of t) < rounds)%nat ->
    (List.length t + 2 <= fuel)%nat ->
    consume rounds fuel w {| pc := InFor (t, Ok tt); synth_calls := n |} self
    = (units_of t, calls_of t, Ended (set_input_buffer self [])).
Proof.
  intros rounds. revert t.
  induction rounds as [|rounds IH]; intros t fuel self Hdone Hrounds Hfuel; [lia|].
  cbn [consume]. rewrite anext_scan by lia.
  destruct (next_yield t) as [cs [[u rest]|]] eqn:Hnext.
  - destruct (next_yield_some _ _ _ _ Hnext) as (Hu & Hc & Hlen).
    rewrite Hu in Hrounds. cbn [List.length] in Hrounds.
    rewrite (IH rest fuel self Hdone) by lia.
    cbn [app]. now rewrite Hu, Hc.
  - destruct (next_yield_none _ _ Hnext) as (Hu & Hc).
    replace (fuel - List.length t)%nat
      with (S (S (fuel - List.length t - 2)))%nat by lia.
    rewrite anext_after_for, Hdone. cbn [app]. now rewrite Hu, Hc.
Qed.

Lemma late_text_is_discarded_witness :
  let self := end_input (push_text (push_text Sample.tts "Hi") "too late") in
  let u := audio_of self (PyStr "abc123") (Sample.chunk_of 4) in
  consume 2 3
    (Sample.world (Sample.answering
                     {| Http.status_code := 200; Http.json := Sample.body_with_id |}
                     Sample.no_stream))
    {| pc := InFor ([Yield u], Ok tt); synth_calls := 1 |} self
  = (units_of [Yield u], calls_of [Yield u], Ended (set_input_buffer self [])).
Proof.
  intros self u.
  apply (late_text_is_discarded _ 1 [Yield u] 2 3 self).
  - reflexivity.
  - cbn. lia.
  - cbn. lia.
Defined.

(** X10. The whole sequence of a turn: with text pending and the input
    ended, a consumer that iterates the adapter receives exactly the units
    of one call of [synthesize_stream] on the joined buffer, sees exactly its
    network calls, and the sequence ends with the buffer cleared. Enough
    steps and requests give this result. *)
Theorem ended_turn_is_one_synthesis (w : World) (self : PlayHTTTS)
    (rounds fuel : nat) :
  _is_input_done self = true ->
  _input_buffer self <> [] ->
  let t := fst (run (remote_at w 0) (urandom_at w 0) self
                  (join " " (_input_buffer self))) in
  (List.length (units_of t) < rounds)%nat ->
  (List.length t + 3 <= fuel)%nat ->
  consume rounds fuel w __aiter__ self
  = (units_of t, calls_of t, Ended (set_input_buffer self [])).
Proof.
  intros Hdone Hbuf t Hrounds Hfuel.
  pose proof (run_returns (remote_at w 0) (urandom_at w 0) self
                (join " " (_input_buffer self))) as Hret.
  subst t.
  destruct (run (remote_at w 0) (urandom_at w 0) self
              (join " " (_input_buffer self))) as [t ending] eqn:Hrun.
  cbn [fst snd] in *. subst ending.
  destruct rounds as [|rounds]; [lia|].
  destruct fuel as [|fuel]; [lia|].
  cbn [consume]. rewrite anext_dispatches by (reflexivity || exact Hbuf).
  cbn [synth_calls __aiter__]. rewrite Hrun, anext_scan by lia.
  destruct (next_yield t) as [cs [[u rest]|]] eqn:Hnext.
  - destruct (next_yield_some _ _ _ _ Hnext) as (Hu & Hc & Hlen).
    rewrite Hu in Hrounds. cbn [List.length] in Hrounds.
    rewrite (late_text_is_discarded w 1 rest rounds (S fuel) self Hdone) by lia.
    cbn [app]. now rewrite Hu, Hc.
  - destruct (next_yield_none _ _ Hnext) as (Hu & Hc).
    replace (fuel - List.length t)%nat
      with (S (S (fuel - List.length t - 2)))%nat by lia.
    rewrite anext_after_for, Hdone. cbn [app]. now rewrite Hu, Hc.
Qed.

Lemma ended_turn_is_one_synthesis_witness :
  let self := end_input (push_text Sample.tts "Hi") in
  let w :=
    Sample.world
      (Sample.answering
         {| Http.status_code := 200; Http.json := Sample.body_with_id |}
         {| Http.chunks := [Sample.chunk_of 4]; Http.broken := None |}) in
  let t := fst (run (remote_at w 0) (urandom_at w 0) self
                  (join " " (_input_buffer self))) in
  consume 2 6 w __aiter__ self
  = (units_of t, calls_of t, Ended (set_input_buffer self [])).
Proof.
  intros self w.
  apply (ended_turn_is_one_synthesis w self 2 6).
  - reflexivity.
  - discriminate.
  - cbn. lia.
  - cbn. lia.
Defined.

Lemma consume_in_for_hangs (w : World) (n : nat) (t : list Event) :
  forall (rounds fuel : nat) (self : PlayHTTTS),
    _is_input_done self = false ->
    (List.length (units_of t) < rounds)%nat ->
    (List.length t + 2 <= fuel)%nat ->
    let '(units, _, ending) :=
      consume rounds fuel w {| pc := InFor (t, Ok tt); synth_calls := n |} self in
    units = units_of t /\ ending = Hung.
Proof.
  intros rounds. revert t.
  induction rounds as [|rounds IH]; intros t fuel self Hdone Hrounds Hfuel; [lia|].
  cbn [consume]. rewrite anext_scan by lia.
  destruct (next_yield t) as [cs [[u rest]|]] eqn:Hnext.
  - destruct (next_yield_some _ _ _ _ Hnext) as (Hu & Hc & Hlen).
    rewrite Hu in Hrounds. cbn [List.length] in Hrounds.
    assert (Hr : (List.length (units_of rest) < rounds)%nat) by lia.
    assert (Hf : (List.length rest + 2 <= fuel)%nat) by lia.
    pose proof (IH rest fuel self Hdone Hr Hf) as Hrec.
    destruct (consume rounds fuel w
                {| pc := InFor (rest, Ok tt); synth_calls := n |} self)
      as [[units calls] ending].
    destruct Hrec as [-> ->]. now rewrite Hu.
  - destruct (next_yield_none _ _ Hnext) as (Hu & Hc).
    replace (fuel - List.length t)%nat
      with (S (S (fuel - List.length t - 2)))%nat by lia.
    rewrite anext_after_for, Hdone. now rewrite Hu.
Qed.

(** X11. Without [end_input()], a turn never ends: a consumer that iterates
    an adapter with text pending receives the units of the one call of
    [synthesize_stream], and the request after the last unit never comes
    back: for every larger number of steps the generator is still spinning
    on its loop test. *)
Theorem unended_turn_hangs (w : World) (self : PlayHTTTS) (rounds fuel : nat) :
  _is_input_done self = false ->
  _input_buffer self <> [] ->
  let t := fst (run (remote_at w 0) (urandom_at w 0) self
                  (join " " (_input_buffer self))) in
  (List.length (units_of t) < rounds)%nat ->
  (List.length t + 3 <= fuel)%nat ->
  let '(units, _, ending) := consume rounds fuel w __aiter__ self in
  units = units_of t /\ ending = Hung.
Proof.
  intros Hdone Hbuf t Hrounds Hfuel.
  pose proof (run_returns (remote_at w 0) (urandom_at w 0) self
                (join " " (_input_buffer self))) as Hret.
  subst t.
  destruct (run (remote_at w 0) (urandom_at w 0) self
              (join " " (_input_buffer self))) as [t ending] eqn:Hrun.
  cbn [fst snd] in *. subst ending.
  destruct rounds as [|rounds]; [lia|].
  destruct fuel as [|fuel]; [lia|].
  cbn [consume]. rewrite anext_dispatches by (reflexivity || exact Hbuf).
  cbn [synth_calls __aiter__]. rewrite Hrun, anext_scan by lia.
  destruct (next_yield t) as [cs [[u rest]|]] eqn:Hnext.
  - destruct (next_yield_some _ _ _ _ Hnext) as (Hu & Hc & Hlen).
    rewrite Hu in Hrounds. cbn [List.length] in Hrounds.
    assert (Hr : (List.length (units_of rest) < rounds)%nat) by lia.
    assert (Hf : (List.length rest + 2 <= S fuel)%nat) by lia.
    pose proof (consume_in_for_hangs w 1 rest rounds (S fuel) self Hdone Hr Hf)
      as Hrec.
    destruct (consume rounds (S fuel) w
                {| pc := InFor (rest, Ok tt); synth_calls := 1 |} self)
      as [[units calls] ending].
    destruct Hrec as [-> ->]. now rewrite Hu.
  - destruct (next_yield_none _ _ Hnext) as (Hu & Hc).
    replace (fuel - List.length t)%nat
      with (S (S (fuel - List.length t - 2)))%nat by lia.
    rewrite anext_after_for, Hdone. now rewrite Hu.
Qed.

Lemma unended_turn_hangs_witness :
  let self := push_text Sample.tts "Hi" in
  let w :=
    Sample.world
      (Sample.answering
         {| Http.status_code := 200; Http.json := Sample.body_with_id |}
         {| Http.chunks := [Sample.chunk_of 4]; Http.broken := None |}) in
  let t := fst (run (remote_at w 0) (urandom_at w 0) self
                  (join " " (_input_buffer self))) in
  let '(units, _, ending) := consume 2 50 w __aiter__ self in
  units = units_of t /\ ending = Hung.
Proof.
  intros self w.
  apply (unended_turn_hangs w self 2 50).
  - reflexivity.
  - discriminate.
  - cbn. lia.
  - cbn. lia.
Defined.

(** ** The event emitter *)

Lemma get_register_same (event_name : string) (callback : nat)
    (events : Emitter.Registry) :
  Emitter.get event_name (Emitter.register event_name callback events)
  = Some (match Emitter.get event_name events with
          | Some callbacks => callbacks
          | None => []
          end ++ [callback])%list.
Proof.
  induction events as [|[name callbacks] rest IH]; cbn [Emitter.register Emitter.get].
  - now rewrite String.eqb_refl.
  - destruct (String.eqb name event_name) eqn:Hname; cbn [Emitter.get];
      rewrite Hname; [reflexivity | exact IH].
Qed.

Lemma get_register_other (event_name other : string) (callback : nat)
    (events : Emitter.Registry) :
  other <> event_name ->
  Emitter.get other (Emitter.register event_name callback events)
  = Emitter.get other events.
Proof.
  intros Hother.
  induction events as [|[name callbacks] rest IH]; cbn [Emitter.register Emitter.get].
  - destruct (String.eqb_spec event_name other) as [Heq|_]; [congruence | reflexivity].
  - destruct (String.eqb_spec name event_name) as [Hname|Hname]; cbn [Emitter.get].
    + subst name.
      destruct (String.eqb_spec event_name other) as [Heq|_]; [congruence | reflexivity].
    + destruct (String.eqb name other); [reflexivity | exact IH].
Qed.

Lemma call_each_app {S : Type} (behaviour : Emitter.Behaviour S)
    (first second : list nat) :
  forall s,
    Emitter.call_each behaviour (first ++ second) s
    = Emitter.mkEmitted
        (Emitter.state
           (Emitter.call_each behaviour second
              (Emitter.state (Emitter.call_each behaviour first s))))
        (Emitter.called (Emitter.call_each behaviour first s)
         ++ Emitter.called
              (Emitter.call_each behaviour second
                 (Emitter.state (Emitter.call_each behaviour first s))))
        (Emitter.logged (Emitter.call_each behaviour first s)
         ++ Emitter.logged
              (Emitter.call_each behaviour second
                 (Emitter.state (Emitter.call_each behaviour first s)))).
Proof.
  induction first as [|callback first IH]; intros s; cbn [app Emitter.call_each].
  - cbn. now destruct (Emitter.call_each behaviour second s).
  - destruct (behaviour callback s) as [s' result].
    rewrite IH. cbn. destruct result; reflexivity.
Qed.



(** X13. Registering a callback with [on] and then emitting the event calls
    the callbacks registered before, then the new one, on the state they
    left; the emission of every other event is unchanged, and the decorator
    hands the callback back. *)
Theorem on_then_emit {S : Type} (behaviour : Emitter.Behaviour S)
    (self : PlayHTTTS) (event_name : string) (callback : nat) (s : S) :
  let before := emit behaviour self event_name s in
  let after := emit behaviour (fst (on self event_name callback)) event_name s in
  Emitter.called after = (Emitter.called before ++ [callback])%list
  /\ Emitter.state after = fst (behaviour callback (Emitter.state before))
  /\ (forall other s',
        other <> event_name ->
        emit behaviour (fst (on self event_name callback)) other s'
        = emit behaviour self other s')
  /\ snd (on self event_name callback) = callback.
Proof.
  intros before after. subst before after. unfold emit, on.
  cbn [fst snd set_events _events]. rewrite get_register_same.
  split; [|split; [|split; [|reflexivity]]].
  - rewrite call_each_app. cbn [Emitter.called Emitter.call_each].
    destruct (Emitter.get event_name (_events self)) as [callbacks|];
      destruct (behaviour callback _); reflexivity.
  - rewrite call_each_app. cbn [Emitter.state Emitter.call_each].
    destruct (Emitter.get event_name (_events self)) as [callbacks|];
      destruct (behaviour callback _); reflexivity.
  - intros other s' Hother. now rewrite get_register_other.
Qed.

(** ** The transcript files *)

Lemma numbered_length (label : string) (lines : list string) :
  forall i, List.length (Fs.numbered label i lines) = List.length lines.
Proof.
  induction lines as [|line rest IH]; intros i; cbn; [reflexivity | now rewrite IH].
Qed.

Lemma numbered_nth (label : string) (lines : list string) :
  forall i k line,
    nth_error lines k = Some line ->
    nth_error (Fs.numbered label i lines) k
    = Some (label ++ Fs.str (i + k) ++ ": " ++ line ++ Fs.newline).
Proof.
  induction lines as [|first rest IH]; intros i k line Hk.
  - destruct k; discriminate Hk.
  - destruct k as [|k]; cbn [nth_error Fs.numbered] in *.
    + injection Hk as <-. now rewrite Nat.add_0_r.
    + rewrite (IH (S i) k line Hk). now rewrite Nat.add_succ_r.
Qed.

Lemma write_each_all (disk : Fs.Disk) (datas : list string) :
  forall written,
    match Fs.failing_write disk with
    | Some (k, _) => (k < written \/ written + List.length datas <= k)%nat
    | None => True
    end ->
    Fs.write_each disk written datas = (map Fs.Write datas, Fs.Done).
Proof.
  induction datas as [|data rest IH]; intros written Hfail; [reflexivity|].
  cbn [Fs.write_each map List.length] in *.
  destruct (Fs.failing_write disk) as [[k msg]|] eqn:Hdisk.
  - destruct (Nat.eqb_spec k written) as [Heq|Hne]; [lia|].
    rewrite IH by lia. reflexivity.
  - now rewrite IH.
Qed.

Lemma write_each_fails (disk : Fs.Disk) (k : nat) (msg : string)
    (datas : list string) :
  Fs.failing_write disk = Some (k, msg) ->
  forall written,
    (written <= k < written + List.length datas)%nat ->
    Fs.write_each disk written datas
    = (map Fs.Write (firstn (k - written) datas), Fs.OSError msg).
Proof.
  intros Hdisk. induction datas as [|data rest IH]; intros written Hk.
  - cbn in Hk. lia.
  - cbn [Fs.write_each List.length] in *. rewrite Hdisk.
    destruct (Nat.eqb_spec k written) as [Heq|Hne].
    + subst k. now rewrite Nat.sub_diag.
    + rewrite IH by lia.
      replace (k - written)%nat with (S (k - S written)) by lia. reflexivity.
Qed.

Lemma writes_of_map (datas : list string) :
  Fs.writes_of (map Fs.Write datas) = datas.
Proof. induction datas as [|data rest IH]; cbn; [reflexivity | now rewrite IH]. Qed.

Lemma save_writes_all (disk : Fs.Disk) (datas : list string) :
  Fs.makedirs disk = Fs.Done ->
  Fs.open_ disk = Fs.Done ->
  Fs.failing_write disk = None ->
  Fs.save disk datas
  = (Fs.Makedirs Fs.output_dir true :: Fs.Open Fs.output_file "w" "utf-8"
       :: map Fs.Write datas,
     Fs.Done).
Proof.
  intros Hmk Hopen Hwrite. unfold Fs.save. rewrite Hmk, Hopen.
  rewrite write_each_all; [reflexivity | now rewrite Hwrite].
Qed.

(** X14. agent.py: on a file system that accepts everything,
    [save_transcripts_to_file] writes one string per transcript, in the
    order of the list; the one at position k (from 0) is the decimal of
    k + 1, a colon and a space, the transcript, and a newline. It returns
    normally. *)
Theorem save_numbers_every_transcript (disk : Fs.Disk)
    (transcripts : list string) :
  Fs.makedirs disk = Fs.Done ->
  Fs.open_ disk = Fs.Done ->
  Fs.failing_write disk = None ->
  let (t, r) := Agent.save_transcripts_to_file disk transcripts in
  r = Fs.Done
  /\ List.length (Fs.writes_of t) = List.length transcripts
  /\ forall k line,
       nth_error transcripts k = Some line ->
       nth_error (Fs.writes_of t) k
       = Some (Fs.str (k + 1) ++ ": " ++ line ++ Fs.newline).
Proof.
  intros Hmk Hopen Hwrite. unfold Agent.save_transcripts_to_file.
  rewrite (save_writes_all _ _ Hmk Hopen Hwrite).
  cbn [Fs.writes_of]. rewrite writes_of_map.
  split; [reflexivity|]. split; [apply numbered_length|].
  intros k line Hk. rewrite (numbered_nth "" transcripts 1 k line Hk).
  now rewrite (Nat.add_comm 1 k).
Qed.

Lemma save_numbers_every_transcript_witness :
  let (t, r) :=
    Agent.save_transcripts_to_file
      {| Fs.makedirs := Fs.Done; Fs.open_ := Fs.Done; Fs.failing_write := None |}
      ["hello"; "how are you"] in
  r = Fs.Done
  /\ List.length (Fs.writes_of t) = List.length ["hello"; "how are you"]
  /\ forall k line,
       nth_error ["hello"; "how are you"] k = Some line ->
       nth_error (Fs.writes_of t) k
       = Some (Fs.str (k + 1) ++ ": " ++ line ++ Fs.newline).
Proof.
  apply (save_numbers_every_transcript
           {| Fs.makedirs := Fs.Done; Fs.open_ := Fs.Done;
              Fs.failing_write := None |}
           ["hello"; "how are you"]); reflexivity.
Defined.

(** X15. Both versions of [save_transcripts_to_file] end exactly as their
    [os.makedirs] does: an error creating the directory goes to the caller
    with nothing opened or written, while an error opening the file or
    writing to it is logged and dropped. *)
Theorem save_fails_only_on_makedirs (disk : Fs.Disk) (transcripts : list string)
    (both : Agent2.Transcripts) :
  snd (Agent.save_transcripts_to_file disk transcripts) = Fs.makedirs disk
  /\ snd (Agent2.save_transcripts_to_file disk both) = Fs.makedirs disk
  /\ (Fs.makedirs disk <> Fs.Done ->
      fst (Agent.save_transcripts_to_file disk transcripts) = []
      /\ fst (Agent2.save_transcripts_to_file disk both) = []).
Proof.
  assert (Hsave : forall datas,
             snd (Fs.save disk datas) = Fs.makedirs disk
             /\ (Fs.makedirs disk <> Fs.Done -> fst (Fs.save disk datas) = [])).
  { intros datas. unfold Fs.save.
    destruct (Fs.makedirs disk) as [|msg]; [|split; reflexivity].
    destruct (Fs.open_ disk); [destruct (Fs.write_each disk 0 datas)|];
      (split; [reflexivity | intros H; now elim H]). }
  unfold Agent.save_transcripts_to_file, Agent2.save_transcripts_to_file.
  cbn zeta. split; [apply Hsave|]. split; [apply Hsave|].
  intros Hfail. split; now apply Hsave.
Qed.

(** X16. agent.py: when the write at position k fails, the file has been
    opened for writing, which empties it, and holds the first k numbered
    lines only; the caller is told nothing. *)
Theorem save_keeps_lines_before_failure (disk : Fs.Disk)
    (transcripts : list string) (k : nat) (msg : string) :
  Fs.makedirs disk = Fs.Done ->
  Fs.open_ disk = Fs.Done ->
  Fs.failing_write disk = Some (k, msg) ->
  (k < List.length transcripts)%nat ->
  let (t, r) := Agent.save_transcripts_to_file disk transcripts in
  r = Fs.Done
  /\ In (Fs.Open Fs.output_file "w" "utf-8") t
  /\ Fs.writes_of t = firstn k (Fs.numbered "" 1 transcripts).
Proof.
  intros Hmk Hopen Hwrite Hk.
  unfold Agent.save_transcripts_to_file, Fs.save. rewrite Hmk, Hopen.
  rewrite (write_each_fails disk k msg _ Hwrite 0)
    by (rewrite numbered_length; lia).
  rewrite Nat.sub_0_r. split; [reflexivity|]. split; [right; left; reflexivity|].
  cbn [Fs.writes_of]. apply writes_of_map.
Qed.

Lemma save_keeps_lines_before_failure_witness :
  let (t, r) :=
    Agent.save_transcripts_to_file
      {| Fs.makedirs := Fs.Done; Fs.open_ := Fs.Done;
         Fs.failing_write := Some (1%nat, "No space left on device") |}
      ["one"; "two"; "three"] in
  r = Fs.Done
  /\ In (Fs.Open Fs.output_file "w" "utf-8") t
  /\ Fs.writes_of t = firstn 1 (Fs.numbered "" 1 ["one"; "two"; "three"]).
Proof.
  apply (save_keeps_lines_before_failure
           {| Fs.makedirs := Fs.Done; Fs.open_ := Fs.Done;
              Fs.failing_write := Some (1%nat, "No space left on device") |}
           ["one"; "two"; "three"] 1 "No space left on device");
    try reflexivity.
  cbn. lia.
Defined.

Lemma heard_all (heard : list string) :
  forall userdata,
    Agent.stt_transcripts (fold_left Agent.on_user_transcript heard userdata)
    = (Agent.stt_transcripts userdata ++ heard)%list.
Proof.
  induction heard as [|transcript rest IH]; intros userdata; cbn [fold_left].
  - now rewrite app_nil_r.
  - rewrite IH. cbn [Agent.on_user_transcript Agent.stt_transcripts].
    now rewrite <- app_assoc.
Qed.

(** X17. agent.py: [prewarm] forgets whatever transcripts the process data
    held; the transcripts the handler receives afterwards are kept in the
    order heard, and saving them writes exactly those, numbered from 1. *)
Theorem heard_transcripts_are_saved_in_order (loaded : nat)
    (userdata : Agent.UserData) (heard : list string) (disk : Fs.Disk) :
  Fs.makedirs disk = Fs.Done ->
  Fs.open_ disk = Fs.Done ->
  Fs.failing_write disk = None ->
  let after :=
    fold_left Agent.on_user_transcript heard (Agent.prewarm loaded userdata) in
  Agent.stt_transcripts after = heard
  /\ Fs.writes_of
       (fst (Agent.save_transcripts_to_file disk (Agent.stt_transcripts after)))
     = Fs.numbered "" 1 heard.
Proof.
  intros Hmk Hopen Hwrite after.
  assert (Hheard : Agent.stt_transcripts after = heard).
  { subst after. now rewrite heard_all. }
  split; [exact Hheard|]. rewrite Hheard.
  unfold Agent.save_transcripts_to_file.
  rewrite (save_writes_all _ _ Hmk Hopen Hwrite).
  cbn [fst Fs.writes_of]. apply writes_of_map.
Qed.

Lemma heard_transcripts_are_saved_in_order_witness :
  let disk :=
    {| Fs.makedirs := Fs.Done; Fs.open_ := Fs.Done; Fs.failing_write := None |} in
  let after :=
    fold_left Agent.on_user_transcript ["hello"; "bye"]
      (Agent.prewarm 0 {| Agent.vad := 9; Agent.stt_transcripts := ["stale"] |}) in
  Agent.stt_transcripts after = ["hello"; "bye"]
  /\ Fs.writes_of
       (fst (Agent.save_transcripts_to_file disk (Agent.stt_transcripts after)))
     = Fs.numbered "" 1 ["hello"; "bye"].
Proof.
  intros disk.
  apply (heard_transcripts_are_saved_in_order 0
           {| Agent.vad := 9; Agent.stt_transcripts := ["stale"] |}
           ["hello"; "bye"] disk); reflexivity.
Defined.

(** X18. agent2.py: the file is the user heading, the user lines, the agent
    heading, the agent lines: two headings even with nothing heard, and the
    numbering starts again from 1 for the agent lines, which come after all
    the user lines. *)
Theorem agent2_file_layout (disk : Fs.Disk) (both : Agent2.Transcripts) :
  Fs.makedirs disk = Fs.Done ->
  Fs.open_ disk = Fs.Done ->
  Fs.failing_write disk = None ->
  let writes := Fs.writes_of (fst (Agent2.save_transcripts_to_file disk both)) in
  let users := List.length (Agent2.user both) in
  List.length writes = (users + List.length (Agent2.agent both) + 2)%nat
  /\ nth_error writes 0 = Some ("=== User Transcripts ===" ++ Fs.newline)
  /\ (forall k line,
        nth_error (Agent2.user both) k = Some line ->
        nth_error writes (1 + k)
        = Some ("User " ++ Fs.str (k + 1) ++ ": " ++ line ++ Fs.newline))
  /\ nth_error writes (1 + users)
     = Some (Fs.newline ++ "=== Agent Transcripts ===" ++ Fs.newline)
  /\ (forall k line,
        nth_error (Agent2.agent both) k = Some line ->
        nth_error writes (2 + users + k)
        = Some ("Agent " ++ Fs.str (k + 1) ++ ": " ++ line ++ Fs.newline)).
Proof.
  intros Hmk Hopen Hwrite writes users. subst writes users.
  unfold Agent2.save_transcripts_to_file. cbn zeta.
  rewrite (save_writes_all _ _ Hmk Hopen Hwrite).
  cbn [fst Fs.writes_of]. rewrite writes_of_map.
  remember (Fs.numbered "User " 1 (Agent2.user both)) as us eqn:Eus.
  assert (Hus : List.length us = List.length (Agent2.user both))
    by (subst us; apply numbered_length).
  split; [|split; [|split; [|split]]].
  - cbn [List.length]. rewrite length_app. cbn [List.length].
    rewrite Hus, numbered_length. lia.
  - reflexivity.
  - intros k line Hk. cbn [Nat.add nth_error].
    rewrite nth_error_app1 by (rewrite Hus; apply nth_error_Some; congruence).
    subst us. rewrite (numbered_nth _ _ 1 k line Hk).
    now rewrite (Nat.add_comm 1 k).
  - cbn [Nat.add nth_error]. rewrite nth_error_app2 by lia.
    rewrite Hus, Nat.sub_diag. reflexivity.
  - intros k line Hk.
    rewrite app_comm_cons, nth_error_app2 by (cbn [List.length]; lia).
    cbn [List.length]. rewrite Hus.
    replace (2 + List.length (Agent2.user both) + k
             - S (List.length (Agent2.user both)))%nat
      with (S k) by lia.
    cbn [nth_error]. rewrite (numbered_nth _ _ 1 k line Hk).
    now rewrite (Nat.add_comm 1 k).
Qed.

Lemma agent2_file_layout_witness :
  let disk :=
    {| Fs.makedirs := Fs.Done; Fs.open_ := Fs.Done; Fs.failing_write := None |} in
  let both := {| Agent2.user := ["hi"; "thanks"]; Agent2.agent := ["hello"] |} in
  let writes := Fs.writes_of (fst (Agent2.save_transcripts_to_file disk both)) in
  let users := List.length (Agent2.user both) in
  List.length writes = (users + List.length (Agent2.agent both) + 2)%nat
  /\ nth_error writes 0 = Some ("=== User Transcripts ===" ++ Fs.newline)
  /\ (forall k line,
        nth_error (Agent2.user both) k = Some line ->
        nth_error writes (1 + k)
        = Some ("User " ++ Fs.str (k + 1) ++ ": " ++ line ++ Fs.newline))
  /\ nth_error writes (1 + users)
     = Some (Fs.newline ++ "=== Agent Transcripts ===" ++ Fs.newline)
  /\ (forall k line,
        nth_error (Agent2.agent both) k = Some line ->
        nth_error writes (2 + users + k)
        = Some ("Agent " ++ Fs.str (k + 1) ++ ": " ++ line ++ Fs.newline)).
Proof.
  intros disk both.
  apply (agent2_file_layout disk both); reflexivity.
Defined.
